(** * convert-certs.js: certificate bundle normalizer

    A shallow embedding of [convert-certs.js]: the three extraction
    strategies, the PEM encoder ([wrap64] and the [pem] template), the
    leaf/chain classifier and the bundle writer, followed by the
    properties of the specification that were checked against them.

    JavaScript strings are sequences of UTF-16 code units; a code unit is
    modelled by its number ([N]) and a string by a list of code units.
    Each regular expression of the script is written out as the scanning
    function it denotes. *)

From Stdlib Require Import String Ascii NArith ZArith Bool Arith Lia List.
Import ListNotations.

Local Open Scope N_scope.

(* ================================================================= *)
(** ** Strings *)

Module JsString.

Definition char := N.
Definition jsstring := list char.

(** A script literal, code unit by code unit. *)
Definition lit (s : string) : jsstring :=
  List.map N_of_ascii (list_ascii_of_string s).

Definition LF : char := 10.
Definition CR : char := 13.

Definition in_range (lo hi c : char) : bool := (lo <=? c) && (c <=? hi).

(** [[A-Za-z0-9+/=]] *)
Definition isBase64 (c : char) : bool :=
  in_range 65 90 c || in_range 97 122 c || in_range 48 57 c
  || (c =? 43) || (c =? 47) || (c =? 61).

(** LineTerminator: the code units that [.] refuses without the [s] flag. *)
Definition isLineTerminator (c : char) : bool :=
  (c =? 10) || (c =? 13) || (c =? 8232) || (c =? 8233).

(** [\s], which is also what [String.prototype.trim] removes:
    WhiteSpace and LineTerminator. *)
Definition isWhiteSpace (c : char) : bool :=
  in_range 9 13 c || (c =? 32) || (c =? 160) || (c =? 5760)
  || in_range 8192 8202 c || (c =? 8232) || (c =? 8233) || (c =? 8239)
  || (c =? 8287) || (c =? 12288) || (c =? 65279).

(** [[A-Za-z0-9+/=\s]] *)
Definition isBase64OrSpace (c : char) : bool := isBase64 c || isWhiteSpace c.

Fixpoint str_eqb (a b : jsstring) : bool :=
  match a, b with
  | [], [] => true
  | x :: a', y :: b' => (x =? y) && str_eqb a' b'
  | _, _ => false
  end.

(** Canonicalisation of the [i] flag (no [u] flag): a code unit outside
    ASCII never folds onto an ASCII one, so only a-z are affected. *)
Definition canonicalize (c : char) : char :=
  if in_range 97 122 c then c - 32 else c.

Definition str_eqb_ci (a b : jsstring) : bool :=
  str_eqb (List.map canonicalize a) (List.map canonicalize b).

(** [Some rest] when [p] is a prefix of [s]. *)
Fixpoint strip_prefix (p s : jsstring) : option jsstring :=
  match p, s with
  | [], _ => Some s
  | x :: p', y :: s' => if x =? y then strip_prefix p' s' else None
  | _ :: _, [] => None
  end.

Fixpoint strip_prefix_ci (p s : jsstring) : option jsstring :=
  match p, s with
  | [], _ => Some s
  | x :: p', y :: s' =>
      if canonicalize x =? canonicalize y then strip_prefix_ci p' s' else None
  | _ :: _, [] => None
  end.

(** Leftmost occurrence of the literal [p] in [s]: what precedes it and
    what follows it. *)
Fixpoint find_literal (p s : jsstring) : option (jsstring * jsstring) :=
  match strip_prefix p s with
  | Some rest => Some ([], rest)
  | None =>
      match s with
      | [] => None
      | c :: s' =>
          match find_literal p s' with
          | Some (before, rest) => Some (c :: before, rest)
          | None => None
          end
      end
  end.

Fixpoint trimStart (s : jsstring) : jsstring :=
  match s with
  | [] => []
  | c :: s' => if isWhiteSpace c then trimStart s' else s
  end.

Fixpoint trimEnd (s : jsstring) : jsstring :=
  match s with
  | [] => []
  | c :: s' =>
      match trimEnd s' with
      | [] => if isWhiteSpace c then [] else [c]
      | t => c :: t
      end
  end.

(** [String.prototype.trim] *)
Definition trim (s : jsstring) : jsstring := trimEnd (trimStart s).

(** [Array.prototype.join] *)
Fixpoint join (sep : jsstring) (l : list jsstring) : jsstring :=
  match l with
  | [] => []
  | [x] => x
  | x :: rest => x ++ sep ++ join sep rest
  end.

(** [split(/\r?\n/)]: a line ends at LF, or at CR immediately followed
    by LF; the result always has at least one element. *)
Definition push_char (c : char) (ls : list jsstring) : list jsstring :=
  match ls with
  | l :: ls' => (c :: l) :: ls'
  | [] => [[c]]
  end.

Fixpoint split_lines (s : jsstring) : list jsstring :=
  match s with
  | [] => [[]]
  | c :: s' =>
      if c =? LF then [] :: split_lines s'
      else if c =? CR then
        match s' with
        | d :: s'' =>
            if d =? LF then [] :: split_lines s''
            else push_char c (split_lines s')
        | [] => push_char c (split_lines s')
        end
      else push_char c (split_lines s')
  end.

(** [replace(/\r?\n/g, '')] *)
Fixpoint remove_line_breaks (s : jsstring) : jsstring :=
  match s with
  | [] => []
  | c :: s' =>
      if c =? LF then remove_line_breaks s'
      else if c =? CR then
        match s' with
        | d :: s'' =>
            if d =? LF then remove_line_breaks s'' else c :: remove_line_breaks s'
        | [] => [c]
        end
      else c :: remove_line_breaks s'
  end.

(** [replace(/\s+/g, '')] *)
Definition remove_whitespace (s : jsstring) : jsstring :=
  List.filter (fun c => negb (isWhiteSpace c)) s.

(** [replace(/[^A-Za-z0-9+/=]/g, '')] *)
Definition keep_base64 (s : jsstring) : jsstring := List.filter isBase64 s.

End JsString.
Import JsString.

(* ================================================================= *)
(** ** Encoder *)

Module Encoder.

Definition HEADER : jsstring := lit "-----BEGIN CERTIFICATE-----".
Definition FOOTER : jsstring := lit "-----END CERTIFICATE-----".

(** Greedy [.{0,n}] at the head of [s]: the run matched and the rest. *)
Fixpoint dot_run (n : nat) (s : jsstring) : jsstring * jsstring :=
  match n, s with
  | S n', c :: s' =>
      if isLineTerminator c then ([], s)
      else let (r, rest) := dot_run n' s' in (c :: r, rest)
  | _, _ => ([], s)
  end.

(** [str.replace(/(.{1,64})/g, '$1\n')]: at each position the longest run
    of at most 64 code units that are not line terminators is followed by
    a newline; a code unit where no run starts is copied.  Every step
    consumes a code unit, so [length str] steps are enough. *)
Fixpoint replace_runs (fuel : nat) (s : jsstring) : jsstring :=
  match fuel with
  | O => s
  | S fuel' =>
      match s with
      | [] => []
      | c :: s' =>
          match dot_run 64 s with
          | ([], _) => c :: replace_runs fuel' s'
          | (r, rest) => r ++ [LF] ++ replace_runs fuel' rest
          end
      end
  end.

Definition wrap64 (str : jsstring) : jsstring :=
  trim (replace_runs (length str) str).

(** [const cleanedB64 = b64.replace(/[^A-Za-z0-9+/=]/g, '')] *)
Definition cleanedB64 (b64 : jsstring) : jsstring := keep_base64 b64.

(** The template literal of line 90. *)
Definition pem (b64 : jsstring) : jsstring :=
  HEADER ++ [LF] ++ wrap64 (cleanedB64 b64) ++ [LF] ++ FOOTER ++ [LF].

End Encoder.
Import Encoder.

(* ================================================================= *)
(** ** Extractor *)

Module Extractor.

(** *** Strategy 1: [raw.matchAll(pemRegex)]

    [/-----BEGIN CERTIFICATE-----(.*?)-----END CERTIFICATE-----/gs]: a
    match starts at the leftmost header that has a footer somewhere after
    it, and its group is what lies before the first such footer (lazy
    [.*?], [s] flag: any code unit).  When the leftmost header has no
    footer after it, no later header has one either.  The scan resumes
    after the footer; each match consumes code units, so [length raw]
    rounds are enough. *)
Fixpoint pem_groups (fuel : nat) (s : jsstring) : list jsstring :=
  match fuel with
  | O => []
  | S fuel' =>
      match find_literal HEADER s with
      | None => []
      | Some (_, after_header) =>
          match find_literal FOOTER after_header with
          | None => []
          | Some (group, rest) => group :: pem_groups fuel' rest
          end
      end
  end.

(** [Array.from(raw.matchAll(pemRegex))
      .map(m => m[1].replace(/\r?\n/g, '').trim())] *)
Definition pem_scan (raw : jsstring) : list jsstring :=
  List.map (fun g => trim (remove_line_breaks g)) (pem_groups (length raw) raw).

(** *** Strategy 2 *)

(** [/^subject=/i.test(l)], [/^issuer=/i.test(l)] *)
Definition starts_with_ci (p l : jsstring) : bool :=
  match strip_prefix_ci p l with Some _ => true | None => false end.

Definition nonempty (l : jsstring) : bool :=
  match l with [] => false | _ :: _ => true end.

(** [raw.split(/\r?\n/).map(l => l.trim())
       .filter(l => l && !/^subject=/i.test(l) && !/^issuer=/i.test(l))
       .join('\n')] *)
Definition cleaned (raw : jsstring) : jsstring :=
  join [LF]
    (List.filter
       (fun l => nonempty l
                 && negb (starts_with_ci (lit "subject=") l)
                 && negb (starts_with_ci (lit "issuer=") l))
       (List.map trim (split_lines raw))).

Definition close_run (run : jsstring) : list jsstring :=
  if (200 <=? length run)%nat then [run] else [].

(** [cleaned.matchAll(/([A-Za-z0-9+/=\s]{200,})/g)]: the maximal runs of
    class members that are at least 200 long ([run] is the run being
    read). *)
Fixpoint base64_runs (run : jsstring) (s : jsstring) : list jsstring :=
  match s with
  | [] => close_run run
  | c :: s' =>
      if isBase64OrSpace c then base64_runs (run ++ [c]) s'
      else close_run run ++ base64_runs [] s'
  end.

(** [base64Matches] *)
Definition base64_scan (raw : jsstring) : list jsstring :=
  List.map remove_whitespace (base64_runs [] (cleaned raw)).

(** *** Strategy 3 *)

(** [/^-----BEGIN CERTIFICATE-----$/i.test(line)] *)
Definition is_begin_marker (line : jsstring) : bool := str_eqb_ci line HEADER.

(** [/^-----END CERTIFICATE-----$/i.test(line)] *)
Definition is_end_marker (line : jsstring) : bool := str_eqb_ci line FOOTER.

(** [/^[A-Za-z0-9+/=]+$/.test(line)] *)
Definition is_base64_line (line : jsstring) : bool :=
  nonempty line && List.forallb isBase64 line.

Record Salvage := { buffer : jsstring; potential : list jsstring }.

(** One turn of the [for (const line of lines)] loop. *)
Definition salvage_step (st : Salvage) (line : jsstring) : Salvage :=
  if is_begin_marker line then
    {| buffer := []; potential := potential st |}
  else if is_end_marker line then
    {| buffer := [];
       potential :=
         if (0 <? length (buffer st))%nat
         then potential st ++ [remove_whitespace (buffer st)]
         else potential st |}
  else if is_base64_line line then
    {| buffer := buffer st ++ line; potential := potential st |}
  else st.

Definition salvage_loop (lines : list jsstring) : Salvage :=
  List.fold_left salvage_step lines {| buffer := []; potential := [] |}.

(** What the loop leaves in [potential]; the buffer is dropped. *)
Definition salvage_lines (lines : list jsstring) : list jsstring :=
  potential (salvage_loop lines).

Definition line_salvage (raw : jsstring) : list jsstring :=
  salvage_lines (List.map trim (split_lines raw)).

(** *** The three strategies in sequence

    [applied] records which strategies were evaluated; [warned] is the
    [console.warn] of line 58. *)
Inductive Strategy := PemScan | Base64Scan | LineSalvage.

Record Extraction := {
  matches : list jsstring;
  applied : list Strategy;
  warned : bool
}.

(** [let matches = Array.from(raw.matchAll(pemRegex)).map(...)] *)
Definition extract1 (raw : jsstring) : Extraction :=
  {| matches := pem_scan raw; applied := [PemScan]; warned := false |}.

(** [if (matches.length === 0) { ... matches = base64Matches; }] *)
Definition extract2 (raw : jsstring) (e : Extraction) : Extraction :=
  if (length (matches e) =? 0)%nat then
    {| matches := base64_scan raw;
       applied := applied e ++ [Base64Scan];
       warned := warned e |}
  else e.

(** [if (matches.length === 0) { console.warn(...); ... matches = potential; }] *)
Definition extract3 (raw : jsstring) (e : Extraction) : Extraction :=
  if (length (matches e) =? 0)%nat then
    {| matches := line_salvage raw;
       applied := applied e ++ [LineSalvage];
       warned := true |}
  else e.

Definition extract (raw : jsstring) : Extraction :=
  extract3 raw (extract2 raw (extract1 raw)).

End Extractor.
Import Extractor.

(* ================================================================= *)
(** ** Files, metadata and the external reader *)

Module Bundle.

(** The files of [./out], named by what [path.join(outDir, ...)] is
    applied to; [CertFile n] is [cert-n.pem]. *)
Inductive Artifact :=
| CertFile (n : nat)
| CertificatePem
| CertificateChainPem
| UploadReadyJson.

Definition artifact_eqb (a b : Artifact) : bool :=
  match a, b with
  | CertFile n, CertFile m => (n =? m)%nat
  | CertificatePem, CertificatePem => true
  | CertificateChainPem, CertificateChainPem => true
  | UploadReadyJson, UploadReadyJson => true
  | _, _ => false
  end.

(** An element of [pemFiles]. *)
Record PemFile := {
  pf_path : Artifact;
  pf_pem : jsstring;
  pf_rawB64 : jsstring
}.

(** An element of [meta]; [None] is [null]. *)
Record Meta := {
  path : Artifact;
  subject : option jsstring;
  issuer : option jsstring;
  notBefore : option jsstring;
  notAfter : option jsstring;
  pem_text : jsstring;
  rawB64 : jsstring
}.

(** The elements of an array with their indices, as the callbacks of
    [forEach], [map] and [filter] receive them. *)
Definition indexed {A : Type} (l : list A) : list (nat * A) :=
  List.combine (List.seq 0 (length l)) l.

(** The body of [matches.forEach((b64, i) => ...)], without its effects. *)
Definition pemFile_of (entry : nat * jsstring) : PemFile :=
  let (i, b64) := entry in
  {| pf_path := CertFile (i + 1);
     pf_pem := pem b64;
     pf_rawB64 := cleanedB64 b64 |}.

Definition pemFiles_of (matches : list jsstring) : list PemFile :=
  List.map pemFile_of (indexed matches).

(** Truthiness of a value that is [null] or a string. *)
Definition truthy (v : option jsstring) : bool :=
  match v with
  | Some (_ :: _) => true
  | _ => false
  end.

(** A greedy [.*] group: up to the first line terminator. *)
Fixpoint dot_star (s : jsstring) : jsstring :=
  match s with
  | [] => []
  | c :: s' => if isLineTerminator c then [] else c :: dot_star s'
  end.

(** [info.match(re)] for [re] the literal [name] followed by a [.*] group,
    then [m ? m[1].trim() : null]. *)
Definition field (name info : jsstring) : option jsstring :=
  match find_literal name info with
  | Some (_, rest) => Some (trim (dot_star rest))
  | None => None
  end.

(** [opensslInspect]: [stdout] is what [spawnSync] returned, [None] when
    [res.error] is set or the call threw. *)
Definition opensslInspect (stdout : option jsstring) : option jsstring :=
  match stdout with
  | Some out => Some (trim out)
  | None => None
  end.

(** The callback of [pemFiles.map(p => ...)]. *)
Definition meta_of (openssl : Artifact -> jsstring -> option jsstring)
    (p : PemFile) : Meta :=
  let info := opensslInspect (openssl (pf_path p) (pf_pem p)) in
  let get name :=
    match info with
    | Some i => if truthy info then field name i else None
    | None => None
    end in
  {| path := pf_path p;
     subject := get (lit "subject=");
     issuer := get (lit "issuer=");
     notBefore := get (lit "notBefore=");
     notAfter := get (lit "notAfter=");
     pem_text := pf_pem p;
     rawB64 := pf_rawB64 p |}.

End Bundle.
Import Bundle.

(* ================================================================= *)
(** ** Classifier *)

Module Classifier.

(** Equality of two values that are [null] or a string
    ([Array.prototype.includes]). *)
Definition value_eqb (a b : option jsstring) : bool :=
  match a, b with
  | Some x, Some y => str_eqb x y
  | None, None => true
  | _, _ => false
  end.

Definition includes (l : list (option jsstring)) (v : option jsstring) : bool :=
  List.existsb (fun x => value_eqb x v) l.

(** [meta.map((m, i) => ({ subject: m.subject, i })).filter(x => x.subject)] *)
Definition subjects (meta : list Meta) : list (option jsstring * nat) :=
  List.filter (fun x => truthy (fst x))
    (List.map (fun e => (subject (snd e), fst e)) (indexed meta)).

(** [subjects.map(s => s.subject)] *)
Definition subjectStrings (meta : list Meta) : list (option jsstring) :=
  List.map fst (subjects meta).

(** [m => m.issuer && !subjectStrings.includes(m.issuer)] *)
Definition is_candidate (meta : list Meta) (m : Meta) : bool :=
  truthy (issuer m) && negb (includes (subjectStrings meta) (issuer m)).

(** [meta.find(...)] and [meta.indexOf(candidate)].  The elements of
    [meta] are distinct objects (one per call of the [map] callback) and
    [indexOf] compares references, so it returns the position at which
    [find] stopped; [find] is therefore run over the indexed array.
    Nothing in the [try] block throws, and its [catch] assigns the same 0
    as the fallback. *)
Definition candidate (meta : list Meta) : option (nat * Meta) :=
  List.find (fun e => is_candidate meta (snd e)) (indexed meta).

Definition leafIndex (meta : list Meta) : nat :=
  match candidate meta with
  | Some (i, _) => i
  | None => 0%nat
  end.

(** [meta[leafIndex]]; [None] is [undefined]. *)
Definition leaf (meta : list Meta) : option Meta :=
  List.nth_error meta (leafIndex meta).

(** [meta.filter((_, idx) => idx !== leafIndex)] *)
Definition chainCerts (meta : list Meta) : list Meta :=
  List.map snd
    (List.filter (fun e => negb (fst e =? leafIndex meta)%nat) (indexed meta)).

End Classifier.
Import Classifier.

(* ================================================================= *)
(** ** Bundle writer and the script as a whole *)

Module Script.

(** What a file holds.  [JSON.stringify(uploadJson, null, 2)] is kept as
    the object it serialises: its two string fields. *)
Inductive Content :=
| Text (s : jsstring)
| UploadJson (Certificate CertificateChain : jsstring).

(** The lines the script prints, by the call that prints them. *)
Inductive Message :=
| MsgUsage
| MsgHeuristic
| MsgNoCertificates
| MsgWrote (a : Artifact)
| MsgWroteLeaf
| MsgWroteChain
| MsgEmptyChain
| MsgWroteJson
| MsgInspection (meta : list Meta)
| MsgDone.

(** What the script does to the outside, in the order it does it. *)
Inductive Effect :=
| Mkdir
| WriteFile (a : Artifact) (c : Content)
| Print (m : Message).

(** How the process ends: [process.exit(code)], the end of the script, or
    an exception nobody catches. *)
Inductive Status :=
| Exit (code : Z)
| Completed
| Uncaught.

(** The exit code the parent process sees. *)
Definition exit_code (s : Status) : Z :=
  match s with
  | Exit code => code
  | Completed => 0%Z
  | Uncaught => 1%Z
  end.

Record Outcome := { status : Status; effects : list Effect }.

(** The surroundings of one run: [process.argv], the file system as
    [fs.readFileSync(inputPath, 'utf8')] sees it ([None]: it throws),
    [fs.existsSync(outDir)], and the standard output of [openssl] run on
    a file with the given content ([None]: it could not be run). *)
Record Env := {
  argv : list jsstring;
  readFileSync : jsstring -> option jsstring;
  outDirExists : bool;
  openssl : Artifact -> jsstring -> option jsstring
}.

Definition is_write (e : Effect) : bool :=
  match e with
  | WriteFile _ _ => true
  | _ => false
  end.

Definition is_fs_effect (e : Effect) : bool :=
  match e with
  | Print _ => false
  | _ => true
  end.

(** [fs.readFileSync] of a file of [./out]: the content of the latest
    write to it. *)
Fixpoint read_back (a : Artifact) (done : list Effect) : option Content :=
  match done with
  | [] => None
  | e :: later =>
      match read_back a later with
      | Some c => Some c
      | None =>
          match e with
          | WriteFile b c => if artifact_eqb a b then Some c else None
          | _ => None
          end
      end
  end.

(** The effects of [matches.forEach((b64, i) => ...)]. *)
Definition write_certs (pemFiles : list PemFile) : list Effect :=
  List.flat_map
    (fun p => [WriteFile (pf_path p) (Text (pf_pem p)); Print (MsgWrote (pf_path p))])
    pemFiles.

(** [chainCerts.map(c => c.pem).join('\n')] *)
Definition combined (chain : list Meta) : jsstring :=
  join [LF] (List.map pem_text chain).

(** Lines 154-164. *)
Definition write_chain (chain : list Meta) : list Effect :=
  if (0 <? length chain)%nat then
    [WriteFile CertificateChainPem (Text (combined chain)); Print MsgWroteChain]
  else
    [WriteFile CertificateChainPem (Text []); Print MsgEmptyChain].

(** Lines 146-173, after the per-certificate files were written. *)
Definition write_bundle (before : list Effect) (meta : list Meta) : Outcome :=
  match leaf meta with
  | None => {| status := Uncaught; effects := before |}
  | Some lf =>
      let done :=
        before
        ++ [WriteFile CertificatePem (Text (pem_text lf)); Print MsgWroteLeaf]
        ++ write_chain (chainCerts meta) in
      match read_back CertificatePem done, read_back CertificateChainPem done with
      | Some (Text certificate), Some (Text chain) =>
          {| status := Completed;
             effects :=
               done
               ++ [WriteFile UploadReadyJson (UploadJson certificate chain);
                   Print MsgWroteJson;
                   Print (MsgInspection meta);
                   Print MsgDone] |}
      | _, _ => {| status := Uncaught; effects := done |}
      end
  end.

(** [const meta = pemFiles.map(p => ...)] *)
Definition metadata (openssl : Artifact -> jsstring -> option jsstring)
    (pemFiles : list PemFile) : list Meta :=
  List.map (meta_of openssl) pemFiles.

(** The script, top to bottom. *)
Definition main (env : Env) : Outcome :=
  if (length (argv env) <? 3)%nat then
    {| status := Exit 2; effects := [Print MsgUsage] |}
  else
    match readFileSync env (List.nth 2 (argv env) []) with
    | None => {| status := Uncaught; effects := [] |}
    | Some raw =>
        let ex := extract raw in
        let warning := if warned ex then [Print MsgHeuristic] else [] in
        if (length (matches ex) =? 0)%nat then
          {| status := Exit 3; effects := warning ++ [Print MsgNoCertificates] |}
        else
          let mkdir := if outDirExists env then [] else [Mkdir] in
          let pemFiles := pemFiles_of (matches ex) in
          let meta := metadata (openssl env) pemFiles in
          write_bundle (warning ++ mkdir ++ write_certs pemFiles) meta
    end.

End Script.
Import Script.

(* ================================================================= *)
(** ** The specification's notions *)

Module Spec.

(** *** Encoder (spec sections 3, 4.2 and 8) *)

Definition strip_suffix (p s : jsstring) : option jsstring :=
  match strip_prefix (rev p) (rev s) with
  | Some r => Some (rev r)
  | None => None
  end.

(** The body of a PEM text: what stands between the header line and the
    footer line. *)
Definition body_of (text : jsstring) : option jsstring :=
  match strip_prefix (HEADER ++ [LF]) text with
  | Some rest => strip_suffix ([LF] ++ FOOTER ++ [LF]) rest
  | None => None
  end.

Definition is_line_break (c : char) : bool := (c =? LF) || (c =? CR).

(** Decoding a body: its line breaks are ignored. *)
Definition decode_body (body : jsstring) : jsstring :=
  List.filter (fun c => negb (is_line_break c)) body.

(** The string cut every 64 code units: the lines the specification
    describes ([fuel] bounds the number of lines). *)
Fixpoint lines64 (fuel : nat) (s : jsstring) : list jsstring :=
  match fuel with
  | O => []
  | S fuel' =>
      match s with
      | [] => []
      | _ :: _ => firstn 64 s :: lines64 fuel' (skipn 64 s)
      end
  end.

(** Lines of exactly [width] code units, the last one possibly shorter
    and never empty. *)
Definition fixed_width_lines (width : nat) (lines : list jsstring) : Prop :=
  lines <> []
  /\ (forall l, In l (removelast lines) -> length l = width)
  /\ (1 <= length (last lines []) <= width)%nat.

(** A text that ends in one newline and no more. *)
Definition one_trailing_newline (text : jsstring) : Prop :=
  exists before c, text = before ++ [c; LF] /\ c <> LF.

(** *** Classifier (spec section 4.3) *)

(** The issuer is present and is the subject of no certificate of the
    sequence. *)
Definition issuer_unmatched (meta : list Meta) (m : Meta) : Prop :=
  exists s, issuer m = Some s
            /\ forall m', In m' meta -> subject m' <> Some s.

(** The same, for an issuer that is moreover not the empty string. *)
Definition nonempty_issuer_unmatched (meta : list Meta) (m : Meta) : Prop :=
  exists s, issuer m = Some s /\ s <> []
            /\ forall m', In m' meta -> subject m' <> Some s.

(** [i] is the first position of [meta] whose certificate satisfies [P]. *)
Definition first_at (P : Meta -> Prop) (meta : list Meta) (i : nat) : Prop :=
  (exists m, nth_error meta i = Some m /\ P m)
  /\ forall j m, (j < i)%nat -> nth_error meta j = Some m -> ~ P m.

(** The sequence without its [i]-th element, order kept. *)
Definition without_index {A : Type} (i : nat) (l : list A) : list A :=
  firstn i l ++ skipn (S i) l.

(** The selection policy, for a given notion of leaf candidate. *)
Definition leaf_policy (P : list Meta -> Meta -> Prop) (meta : list Meta) : Prop :=
  (forall i, first_at (P meta) meta i -> leafIndex meta = i)
  /\ ((forall m, In m meta -> ~ P meta m) -> leafIndex meta = 0%nat)
  /\ chainCerts meta = without_index (leafIndex meta) meta
  /\ (meta <> [] -> exists m, leaf meta = Some m).

(** *** Bundle writer (spec section 4.4) *)

(** The PEM texts one after the other, nothing in between. *)
Definition plain_concatenation (chain : list Meta) : jsstring :=
  List.concat (List.map pem_text chain).

(** The run of the script on [env] reads [raw] and finds certificates. *)
Definition reads_certificates (env : Env) (raw : jsstring) : Prop :=
  (3 <= length (argv env))%nat
  /\ readFileSync env (List.nth 2 (argv env) []) = Some raw
  /\ matches (extract raw) <> [].

(** The chain of the bundle of that run. *)
Definition chain_of (env : Env) (raw : jsstring) : list Meta :=
  chainCerts (metadata (openssl env) (pemFiles_of (matches (extract raw)))).

Definition chain_file_is (content : list Meta -> jsstring) (env : Env) : Prop :=
  forall raw, reads_certificates env raw ->
    read_back CertificateChainPem (effects (main env))
    = Some (Text (content (chain_of env raw))).

(** What the run does before and after the classification. *)
Definition setup_effects (env : Env) (raw : jsstring) : list Effect :=
  (if warned (extract raw) then [Print MsgHeuristic] else [])
  ++ (if outDirExists env then [] else [Mkdir])
  ++ write_certs (pemFiles_of (matches (extract raw))).

Definition bundle_effects (lf : Meta) (meta : list Meta) (msg : Message)
    : list Effect :=
  [WriteFile CertificatePem (Text (pem_text lf));
   Print MsgWroteLeaf;
   WriteFile CertificateChainPem (Text (combined (chainCerts meta)));
   Print msg;
   WriteFile UploadReadyJson
     (UploadJson (pem_text lf) (combined (chainCerts meta)));
   Print MsgWroteJson;
   Print (MsgInspection meta);
   Print MsgDone].

(** Every artifact of a bundle of [n] certificates is among the writes. *)
Definition all_artifacts_written (n : nat) (done : list Effect) : Prop :=
  (forall i, (1 <= i <= n)%nat -> exists c, In (WriteFile (CertFile i) c) done)
  /\ (exists c, In (WriteFile CertificatePem c) done)
  /\ (exists c, In (WriteFile CertificateChainPem c) done)
  /\ (exists c, In (WriteFile UploadReadyJson c) done).

(** Nothing was created: no file and no directory. *)
Definition nothing_written (done : list Effect) : Prop :=
  List.filter is_fs_effect done = [].

(** *** Line-by-line salvage (spec section 4.1, strategy 3) *)

Definition is_marker (line : jsstring) : bool :=
  is_begin_marker line || is_end_marker line.

(** [r] is made of the base64 lines of [seg], a stretch of [lines] without
    markers that an END marker closes and that starts where [opened]
    allows. *)
Definition emitted_from (opened : list jsstring -> Prop)
    (lines : list jsstring) (r : jsstring) : Prop :=
  exists before seg e after,
    lines = before ++ seg ++ e :: after
    /\ opened before
    /\ is_end_marker e = true
    /\ (forall l, In l seg -> is_marker l = false)
    /\ r = List.concat (List.filter is_base64_line seg)
    /\ r <> [].

(** The stretch starts right after a BEGIN marker. *)
Definition opened_by_begin (before : list jsstring) : Prop :=
  exists before' b, before = before' ++ [b] /\ is_begin_marker b = true.

(** The stretch starts right after any marker, or at the first line. *)
Definition opened_anyhow (before : list jsstring) : Prop :=
  before = []
  \/ exists before' b, before = before' ++ [b] /\ is_marker b = true.

(** *** Well-formed PEM scan (spec section 4.1, strategy 1) *)

(** [g] stands in [raw] between a header and a footer. *)
Definition block_body (raw g : jsstring) : Prop :=
  exists before after, raw = before ++ HEADER ++ g ++ FOOTER ++ after.

Definition whitespace_free (r : jsstring) : Prop :=
  forall c, In c r -> isWhiteSpace c = false.

Definition no_edge_whitespace (r : jsstring) : Prop :=
  (forall c rest, r = c :: rest -> isWhiteSpace c = false)
  /\ (forall front c, r = front ++ [c] -> isWhiteSpace c = false).

End Spec.
Import Spec.

(* ================================================================= *)
(** ** Concrete inputs *)

Module Inputs.

(** A payload of 70 base64 characters: one full line and a short one. *)
Definition payload70 : jsstring :=
  lit "MIIBkTCB+wIJAKHBfpegPjMCMA0GCSqGSIb3DQEBCwUAMBExDzANBgNVBAMMBnRlc3RDQTAe".

(** A well-formed block followed by 250 base64-looking characters. *)
Definition block_and_noise : jsstring :=
  lit "-----BEGIN CERTIFICATE-----
QUJD
-----END CERTIFICATE-----
" ++ repeat 65 250.

(** A block with nothing between its header and its footer. *)
Definition empty_block : jsstring :=
  lit "-----BEGIN CERTIFICATE-----
-----END CERTIFICATE-----
".

(** A block whose body holds a space. *)
Definition spaced_block : jsstring :=
  lit "-----BEGIN CERTIFICATE-----
QUJD RUZH
-----END CERTIFICATE-----
".

(** A base64 line closed by an END marker that no BEGIN marker precedes. *)
Definition headless_block : jsstring :=
  lit "QUJD
-----END CERTIFICATE-----
".

(** Lines of a broken file: lower-case markers, one closed stretch and a
    stretch left open. *)
Definition broken_lines : list jsstring :=
  [lit "-----begin certificate-----"; lit "QUJD"; lit "not base64!";
   lit "RUZH"; lit "-----end certificate-----";
   lit "-----BEGIN CERTIFICATE-----"; lit "SUpL"].

(** A run started as [node convert-certs.js input.txt] on a file holding
    [raw], without [./out] and without [openssl]. *)
Definition run_on (raw : jsstring) : Env :=
  {| argv := [lit "node"; lit "convert-certs.js"; lit "input.txt"];
     readFileSync := fun _ => Some raw;
     outDirExists := false;
     openssl := fun _ _ => None |}.

(** Two and three well-formed blocks. *)
Definition two_blocks : jsstring :=
  lit "-----BEGIN CERTIFICATE-----
QUJD
-----END CERTIFICATE-----
-----BEGIN CERTIFICATE-----
RUZH
-----END CERTIFICATE-----
".

Definition three_blocks : jsstring :=
  two_blocks ++ lit "-----BEGIN CERTIFICATE-----
SUpL
-----END CERTIFICATE-----
".

(** A reader that finds an empty issuer in the first certificate. *)
Definition reader_empty_issuer (a : Artifact) (_ : jsstring) : option jsstring :=
  match a with
  | CertFile 1 => Some (lit "subject=CN = www.example.org
issuer=
")
  | _ => Some (lit "subject=CN = Example CA
issuer=CN = Example Root
")
  end.

(** A reader for a bundle that lists the issuing CA first. *)
Definition reader_ca_first (a : Artifact) (_ : jsstring) : option jsstring :=
  match a with
  | CertFile 1 => Some (lit "subject=CN = Example CA
issuer=CN = Example CA
")
  | _ => Some (lit "subject=CN = www.example.org
issuer=CN = Other CA
")
  end.

Definition meta_empty_issuer : list Meta :=
  metadata reader_empty_issuer (pemFiles_of (matches (extract two_blocks))).

Definition meta_ca_first : list Meta :=
  metadata reader_ca_first (pemFiles_of (matches (extract two_blocks))).

(** A run started without an input path. *)
Definition run_without_argument : Env :=
  {| argv := [lit "node"; lit "convert-certs.js"];
     readFileSync := fun _ => None;
     outDirExists := false;
     openssl := fun _ _ => None |}.

(** A block whose body is interspersed with characters outside the
    base64 alphabet. *)
Definition garbage_block : jsstring :=
  lit "-----BEGIN CERTIFICATE-----
QU#JD  (RUZH)	!
-----END CERTIFICATE-----
".

End Inputs.
Import Inputs.

(* ================================================================= *)
(** ** More concrete inputs *)

Module MoreInputs.

(** Two PEM texts of the encoder with a comment between them and a blank
    line at the end; the second payload holds a character to clean. *)
Definition commented_blocks : list (jsstring * jsstring) :=
  [([], lit "QUJD"); (lit "intermediate follows
", lit "RU#ZH")].

(** A reader for a bundle in the usual order: the end-entity certificate
    first, then the CA that issued it, itself issued by a root that is not
    in the bundle. *)
Definition reader_leaf_first (a : Artifact) (_ : jsstring) : option jsstring :=
  match a with
  | CertFile 1 => Some (lit "subject=CN = www.example.org
issuer=CN = Example CA
notBefore=Jan  1 00:00:00 2024 GMT
notAfter=Jan  1 00:00:00 2025 GMT
")
  | _ => Some (lit "subject=CN = Example CA
issuer=CN = Example Root
")
  end.

Definition meta_leaf_first : list Meta :=
  metadata reader_leaf_first (pemFiles_of (matches (extract two_blocks))).

(** Bare base64 on two lines of 150 characters, with a [subject=] line
    before them and an [issuer=] line between them. *)
Definition bare_with_metadata : jsstring :=
  lit "subject=CN = www.example.org
" ++ repeat 65 150 ++ lit "
issuer=CN = Example CA
" ++ repeat 66 150 ++ [LF].

(** A text with no certificate at all: 200 spaces between two [#]. *)
Definition hash_and_spaces : jsstring :=
  lit "#" ++ repeat 32 200 ++ lit "#".

End MoreInputs.
Import MoreInputs.

(* ================================================================= *)
(** ** FileToBase64.js *)

Module FileToBase64.

(** The base64 alphabet by index: A-Z, a-z, 0-9, [+], [/]. *)
Definition b64_digit (i : N) : char :=
  if i <? 26 then 65 + i
  else if i <? 52 then 71 + i
  else if i <? 62 then i - 4
  else if i =? 62 then 43
  else 47.

(** [data.toString("base64")] of a [Buffer]: three bytes give four
    digits; one or two bytes left over give two or three digits and the
    padding [=]. *)
Fixpoint toBase64 (data : list Byte.byte) : jsstring :=
  match data with
  | [] => []
  | [a] =>
      let a := Byte.to_N a in
      [b64_digit (a / 4); b64_digit ((a mod 4) * 16); 61; 61]
  | [a; b] =>
      let a := Byte.to_N a in
      let b := Byte.to_N b in
      [b64_digit (a / 4); b64_digit ((a mod 4) * 16 + b / 16);
       b64_digit ((b mod 16) * 4); 61]
  | a :: b :: c :: rest =>
      let a := Byte.to_N a in
      let b := Byte.to_N b in
      let c := Byte.to_N c in
      [b64_digit (a / 4); b64_digit ((a mod 4) * 16 + b / 16);
       b64_digit ((b mod 16) * 4 + c / 64); b64_digit (c mod 64)]
      ++ toBase64 rest
  end.

(** The script: what it writes to [output.b64]; [None] when
    [fs.readFileSync] throws (no path given, or no such file). *)
Definition file_to_base64 (argv : list jsstring)
    (readFileSync : jsstring -> option (list Byte.byte)) : option jsstring :=
  match List.nth_error argv 2 with
  | None => None
  | Some filePath =>
      match readFileSync filePath with
      | None => None
      | Some data => Some (toBase64 data)
      end
  end.

End FileToBase64.
Import FileToBase64.

(* ================================================================= *)
(** ** Further notions used to state what the scripts do *)

Module Observations.

(** The test of the [filter] of lines 44-48. *)
Definition keep_line (l : jsstring) : bool :=
  nonempty l
  && negb (starts_with_ci (lit "subject=") l)
  && negb (starts_with_ci (lit "issuer=") l).

(** The lines that [cleaned] joins. *)
Definition kept_lines (raw : jsstring) : list jsstring :=
  List.filter keep_line (List.map trim (split_lines raw)).

(** No hyphen in the text. *)
Definition dash_free (s : jsstring) : bool :=
  List.forallb (fun c => negb (c =? 45)) s.

(** A text made of PEM texts of the encoder, each preceded by some
    separator text, and a tail. *)
Definition blocks_text (blocks : list (jsstring * jsstring)) (tail : jsstring)
    : jsstring :=
  List.flat_map (fun pb => fst pb ++ pem (snd pb)) blocks ++ tail.

(** What a run does to the file system, in order. *)
Inductive FsOp :=
| OpMkdir
| OpWrite (a : Artifact).

Definition fs_ops (done : list Effect) : list FsOp :=
  List.flat_map
    (fun e =>
       match e with
       | Mkdir => [OpMkdir]
       | WriteFile a _ => [OpWrite a]
       | Print _ => []
       end)
    done.

(** The metadata of a run that reads [raw]. *)
Definition meta_of_run (env : Env) (raw : jsstring) : list Meta :=
  metadata (openssl env) (pemFiles_of (matches (extract raw))).

(** The reader gives nothing usable for any certificate. *)
Definition reader_silent (env : Env) : Prop :=
  forall a text, truthy (opensslInspect (openssl env a text)) = false.

(** Each certificate is issued by the next one of the sequence. *)
Definition linked (meta : list Meta) : Prop :=
  forall i m m',
    nth_error meta i = Some m -> nth_error meta (S i) = Some m' ->
    truthy (issuer m) = true /\ issuer m = subject m'.

(** A run that reads [text] from its input file. *)
Definition reads (env : Env) (text : jsstring) : Prop :=
  (3 <= length (argv env))%nat
  /\ readFileSync env (List.nth 2 (argv env) []) = Some text.

End Observations.
Import Observations.

(* ================================================================= *)
(** ** A binary file *)

Module BinaryInput.

(** 150 bytes: 0, 1, 2, ... *)
Definition der150 : list Byte.byte :=
  List.map (fun n => match Byte.of_N (N.of_nat n) with
                     | Some b => b
                     | None => Byte.x00
                     end) (List.seq 0 150).

Definition read_der150 (_ : jsstring) : option (list Byte.byte) := Some der150.

Definition argv_der : list jsstring :=
  [lit "node"; lit "FileToBase64.js"; lit "cert.der"].

End BinaryInput.
Import BinaryInput.

(* ================================================================= *)
(** ** Code units and strings: basic facts *)

Ltac bool_to_prop :=
  repeat rewrite ?orb_true_iff, ?orb_false_iff, ?andb_true_iff,
    ?andb_false_iff, ?negb_true_iff, ?negb_false_iff,
    ?N.leb_le, ?N.leb_gt, ?N.eqb_eq, ?N.eqb_neq in *.

Lemma isBase64_not_whitespace (c : char) :
  isBase64 c = true -> isWhiteSpace c = false.
Proof.
  unfold isBase64, isWhiteSpace, in_range. intros H.
  bool_to_prop. lia.
Qed.

Lemma isBase64_not_terminator (c : char) :
  isBase64 c = true -> isLineTerminator c = false.
Proof.
  unfold isBase64, isLineTerminator, in_range. intros H.
  bool_to_prop. lia.
Qed.

Lemma isBase64_not_line_break (c : char) :
  isBase64 c = true -> is_line_break c = false.
Proof.
  unfold isBase64, is_line_break, in_range, LF, CR. intros H.
  bool_to_prop. lia.
Qed.

Lemma LF_is_whitespace : isWhiteSpace LF = true.
Proof. reflexivity. Qed.

Lemma str_eqb_eq (a b : jsstring) : str_eqb a b = true <-> a = b.
Proof.
  revert b. induction a as [|x a IH]; intros [|y b]; simpl;
    try (split; [discriminate | discriminate]); try tauto.
  rewrite andb_true_iff, N.eqb_eq, IH. split.
  - intros [-> ->]. reflexivity.
  - intros E. injection E as -> ->. auto.
Qed.

Lemma strip_prefix_app (p s : jsstring) : strip_prefix p (p ++ s) = Some s.
Proof.
  induction p as [|x p IH]; simpl; [reflexivity|].
  rewrite N.eqb_refl. exact IH.
Qed.

Lemma strip_prefix_Some (p s r : jsstring) :
  strip_prefix p s = Some r -> s = p ++ r.
Proof.
  revert s. induction p as [|x p IH]; intros s H; simpl in *.
  - congruence.
  - destruct s as [|y s]; [discriminate|].
    destruct (N.eqb_spec x y) as [->|]; [|discriminate].
    rewrite (IH _ H). reflexivity.
Qed.

Lemma strip_suffix_app (p s : jsstring) : strip_suffix p (s ++ p) = Some s.
Proof.
  unfold strip_suffix. rewrite rev_app_distr, strip_prefix_app, rev_involutive.
  reflexivity.
Qed.

Lemma find_literal_Some (p s before rest : jsstring) :
  find_literal p s = Some (before, rest) -> s = before ++ p ++ rest.
Proof.
  revert before. induction s as [|c s IH]; intros before H.
  - simpl in H. destruct (strip_prefix p []) eqn:E; [|discriminate].
    injection H as <- <-. apply strip_prefix_Some in E. exact E.
  - simpl in H. destruct (strip_prefix p (c :: s)) eqn:E.
    + injection H as <- <-. apply strip_prefix_Some in E. exact E.
    + destruct (find_literal p s) as [[b r]|] eqn:F; [|discriminate].
      injection H as <- <-. rewrite (IH b eq_refl). reflexivity.
Qed.

(** *** [trim] *)

Lemma trimEnd_whitespace (x : jsstring) (w : char) :
  isWhiteSpace w = true -> trimEnd (x ++ [w]) = trimEnd x.
Proof.
  intros W. induction x as [|c x IH]; simpl.
  - rewrite W. reflexivity.
  - rewrite IH. reflexivity.
Qed.

Lemma trimEnd_fixed (x : jsstring) (c : char) :
  isWhiteSpace c = false -> trimEnd (x ++ [c]) = x ++ [c].
Proof.
  intros W. induction x as [|a x IH]; simpl.
  - rewrite W. reflexivity.
  - rewrite IH. destruct (x ++ [c]) eqn:E; [|reflexivity].
    destruct x; discriminate.
Qed.

Lemma trimEnd_incl (s : jsstring) (c : char) : In c (trimEnd s) -> In c s.
Proof.
  induction s as [|a s IH]; simpl; [tauto|].
  destruct (trimEnd s) as [|t ts] eqn:E.
  - destruct (isWhiteSpace a); simpl; tauto.
  - simpl. intros [->|H]; [auto|]. right. apply IH. exact H.
Qed.

Lemma trimStart_incl (s : jsstring) (c : char) : In c (trimStart s) -> In c s.
Proof.
  induction s as [|a s IH]; simpl; [tauto|].
  destruct (isWhiteSpace a); simpl; tauto.
Qed.

Lemma trim_incl (s : jsstring) (c : char) : In c (trim s) -> In c s.
Proof.
  unfold trim. intros H. apply trimStart_incl, trimEnd_incl, H.
Qed.

Lemma trimStart_head (s : jsstring) (c : char) (rest : jsstring) :
  trimStart s = c :: rest -> isWhiteSpace c = false.
Proof.
  induction s as [|a s IH]; simpl; [discriminate|].
  destruct (isWhiteSpace a) eqn:W; [exact IH|].
  intros E. injection E as <- <-. exact W.
Qed.

Lemma trimEnd_head (s : jsstring) (c : char) (rest : jsstring) :
  trimEnd s = c :: rest -> exists rest', s = c :: rest'.
Proof.
  destruct s as [|a s]; simpl; [discriminate|].
  destruct (trimEnd s).
  - destruct (isWhiteSpace a); [discriminate|].
    intros E. injection E as <- <-. eauto.
  - intros E. injection E as <- <-. eauto.
Qed.

Lemma trimEnd_last (s front : jsstring) (c : char) :
  trimEnd s = front ++ [c] -> isWhiteSpace c = false.
Proof.
  revert front. induction s as [|a s IH]; intros front; simpl.
  - destruct front; discriminate.
  - destruct (trimEnd s) as [|t ts] eqn:E.
    + destruct (isWhiteSpace a) eqn:W.
      * destruct front; discriminate.
      * destruct front as [|f [|f' front]]; try discriminate.
        intros H. injection H as <-. exact W.
    + destruct front as [|f front]; [discriminate|].
      intros H. injection H as <- H. eapply IH. exact H.
Qed.

Lemma trim_edges (s : jsstring) : no_edge_whitespace (trim s).
Proof.
  unfold no_edge_whitespace, trim. split.
  - intros c rest E. destruct (trimEnd_head _ _ _ E) as [rest' E'].
    eapply trimStart_head. exact E'.
  - intros front c E. eapply trimEnd_last. exact E.
Qed.

Lemma trim_fixed (x : jsstring) (c d : char) (rest front : jsstring) :
  x = c :: rest -> x = front ++ [d] ->
  isWhiteSpace c = false -> isWhiteSpace d = false ->
  trim (x ++ [LF]) = x.
Proof.
  intros E1 E2 Wc Wd. unfold trim.
  assert (S : trimStart (x ++ [LF]) = x ++ [LF]).
  { rewrite E1. simpl. rewrite Wc. reflexivity. }
  rewrite S, (trimEnd_whitespace x LF LF_is_whitespace).
  rewrite E2. apply trimEnd_fixed. exact Wd.
Qed.

(* ================================================================= *)
(** ** Encoder: [wrap64] on a base64 string *)

Lemma dot_run_base64 (n : nat) (s : jsstring) :
  forallb isBase64 s = true -> dot_run n s = (firstn n s, skipn n s).
Proof.
  revert s. induction n as [|n IH]; intros [|c s] H; simpl; try reflexivity.
  simpl in H. apply andb_true_iff in H as [Hc Hs].
  rewrite (isBase64_not_terminator c Hc), (IH s Hs). reflexivity.
Qed.

Lemma forallb_firstn {A : Type} (f : A -> bool) (n : nat) (l : list A) :
  forallb f l = true -> forallb f (firstn n l) = true.
Proof.
  revert l. induction n as [|n IH]; intros [|a l] H; simpl; try reflexivity.
  simpl in H. apply andb_true_iff in H as [Ha Hl].
  rewrite Ha, (IH l Hl). reflexivity.
Qed.

Lemma forallb_skipn {A : Type} (f : A -> bool) (n : nat) (l : list A) :
  forallb f l = true -> forallb f (skipn n l) = true.
Proof.
  revert l. induction n as [|n IH]; intros [|a l] H; simpl; try reflexivity.
  - exact H.
  - simpl in H. apply andb_true_iff in H as [_ Hl]. exact (IH l Hl).
Qed.

Lemma skipn64_shorter (c : char) (s : jsstring) (fuel : nat) :
  (length (c :: s) <= S fuel)%nat -> (length (skipn 64 (c :: s)) <= fuel)%nat.
Proof.
  intros H. rewrite length_skipn. simpl in *. lia.
Qed.

(** On a base64 string the replacement writes every 64-unit line followed
    by a newline. *)
Lemma replace_runs_base64 (fuel : nat) (s : jsstring) :
  (length s <= fuel)%nat -> forallb isBase64 s = true ->
  replace_runs fuel s = flat_map (fun l => l ++ [LF]) (lines64 fuel s).
Proof.
  revert s. induction fuel as [|fuel IH]; intros s L B.
  - destruct s; [reflexivity | simpl in L; lia].
  - destruct s as [|c s]; [reflexivity|].
    cbn [replace_runs lines64 flat_map].
    rewrite (dot_run_base64 64 (c :: s) B).
    change (firstn 64 (c :: s)) with (c :: firstn 63 s).
    rewrite (IH (skipn 64 (c :: s))).
    + rewrite <- app_assoc. reflexivity.
    + apply skipn64_shorter, L.
    + apply forallb_skipn, B.
Qed.

Lemma lines64_concat (fuel : nat) (s : jsstring) :
  (length s <= fuel)%nat -> concat (lines64 fuel s) = s.
Proof.
  revert s. induction fuel as [|fuel IH]; intros s L.
  - destruct s; [reflexivity | simpl in L; lia].
  - destruct s as [|c s]; [reflexivity|].
    cbn [lines64 concat]. rewrite IH by (apply skipn64_shorter, L).
    apply firstn_skipn.
Qed.

Lemma lines64_nonempty (fuel : nat) (s : jsstring) :
  s <> [] -> (length s <= fuel)%nat -> lines64 fuel s <> [].
Proof.
  destruct fuel as [|fuel]; intros N L.
  - destruct s; [congruence | simpl in L; lia].
  - destruct s; [congruence | simpl; discriminate].
Qed.

Lemma lines64_each (fuel : nat) (s l : jsstring) :
  forallb isBase64 s = true -> In l (lines64 fuel s) ->
  l <> [] /\ forallb isBase64 l = true.
Proof.
  revert s. induction fuel as [|fuel IH]; intros s B H; [destruct H|].
  destruct s as [|c s]; [destruct H|].
  cbn [lines64] in H. destruct H as [<-|H].
  - split; [simpl; discriminate | apply forallb_firstn, B].
  - eapply IH; [|exact H]. apply forallb_skipn, B.
Qed.

Lemma lines64_nil (fuel : nat) : lines64 fuel [] = [].
Proof. destruct fuel; reflexivity. Qed.

Lemma lines64_widths (fuel : nat) (s : jsstring) :
  s <> [] -> (length s <= fuel)%nat -> fixed_width_lines 64 (lines64 fuel s).
Proof.
  intros N L. unfold fixed_width_lines.
  split; [apply lines64_nonempty; assumption|].
  revert s N L. induction fuel as [|fuel IH]; intros s N L.
  - destruct s; [congruence | simpl in L; lia].
  - destruct s as [|c s]; [congruence|]. cbn [lines64].
    destruct (skipn 64 (c :: s)) as [|d rest] eqn:E.
    + rewrite lines64_nil. cbn [removelast last]. split.
      * intros l [].
      * assert (length (skipn 64 (c :: s)) = 0%nat) as K by (rewrite E; reflexivity).
        rewrite length_skipn in K. rewrite length_firstn. simpl length in *. lia.
    + assert (Lr : (length (d :: rest) <= fuel)%nat).
      { rewrite <- E. apply skipn64_shorter, L. }
      assert (Nr : d :: rest <> []) by discriminate.
      destruct (IH (d :: rest) Nr Lr) as [Hall Hlast].
      pose proof (lines64_nonempty fuel (d :: rest) Nr Lr) as NE.
      destruct (lines64 fuel (d :: rest)) as [|x xs] eqn:EL; [congruence|].
      split.
      * change (removelast (firstn 64 (c :: s) :: x :: xs))
          with (firstn 64 (c :: s) :: removelast (x :: xs)).
        intros l [<-|H]; [|apply Hall, H].
        assert (length (skipn 64 (c :: s)) = S (length rest)) as K
            by (rewrite E; reflexivity).
        rewrite length_skipn in K. rewrite length_firstn. simpl length in *. lia.
      * exact Hlast.
Qed.

Lemma flat_map_join (lines : list jsstring) :
  lines <> [] ->
  flat_map (fun l => l ++ [LF]) lines = join [LF] lines ++ [LF].
Proof.
  induction lines as [|x [|y rest] IH]; intros N; [congruence | |].
  - simpl. rewrite app_nil_r. reflexivity.
  - cbn [flat_map join]. cbn [flat_map] in IH.
    rewrite IH by discriminate. rewrite <- !app_assoc. reflexivity.
Qed.

Lemma join_empty_lines : join [LF] [] = [] /\ flat_map (fun l : jsstring => l ++ [LF]) [] = [].
Proof. split; reflexivity. Qed.

(** The first and the last code unit of joined base64 lines are base64. *)
Lemma join_edges (lines : list jsstring) :
  lines <> [] ->
  (forall l, In l lines -> l <> [] /\ forallb isBase64 l = true) ->
  exists c rest front d,
    join [LF] lines = c :: rest /\ join [LF] lines = front ++ [d]
    /\ isBase64 c = true /\ isBase64 d = true.
Proof.
  induction lines as [|x [|y more] IH]; intros N H; [congruence | |].
  - destruct (H x (or_introl eq_refl)) as [Nx Bx]. simpl.
    destruct x as [|c rest]; [congruence|].
    destruct (exists_last Nx) as [front [d E]].
    exists c, rest, front, d. repeat split; auto.
    + simpl in Bx. apply andb_true_iff in Bx. tauto.
    + rewrite E in Bx. rewrite forallb_app in Bx. simpl in Bx.
      apply andb_true_iff in Bx as [_ Bd]. apply andb_true_iff in Bd. tauto.
  - destruct (H x (or_introl eq_refl)) as [Nx Bx].
    destruct IH as [c' [rest' [front [d [E1 [E2 [B1 B2]]]]]]];
      [discriminate | intros l Hl; apply H; right; exact Hl |].
    destruct x as [|c rest]; [congruence|].
    change (join [LF] ((c :: rest) :: y :: more))
      with ((c :: rest) ++ [LF] ++ join [LF] (y :: more)).
    exists c, (rest ++ [LF] ++ join [LF] (y :: more)),
      ((c :: rest) ++ [LF] ++ front), d.
    repeat split; auto.
    + rewrite E2. rewrite <- !app_assoc. reflexivity.
    + simpl in Bx. apply andb_true_iff in Bx. tauto.
Qed.

(** [wrap64] of a base64 string: its 64-unit lines, a newline between
    two consecutive ones. *)
Lemma wrap64_base64 (s : jsstring) :
  forallb isBase64 s = true ->
  wrap64 s = join [LF] (lines64 (length s) s).
Proof.
  intros B. unfold wrap64.
  rewrite (replace_runs_base64 (length s) s (le_n _) B).
  destruct s as [|c s]; [reflexivity|].
  assert (N : c :: s <> []) by discriminate.
  pose proof (lines64_nonempty (length (c :: s)) (c :: s) N (le_n _)) as NE.
  rewrite (flat_map_join _ NE).
  destruct (join_edges (lines64 (length (c :: s)) (c :: s)) NE)
    as [a [rest [front [d [E1 [E2 [Ba Bd]]]]]]].
  { intros l Hl. eapply lines64_each; eassumption. }
  eapply trim_fixed; eauto using isBase64_not_whitespace.
Qed.

Lemma keep_base64_all (s : jsstring) : forallb isBase64 (keep_base64 s) = true.
Proof.
  unfold keep_base64. induction s as [|c s IH]; simpl; [reflexivity|].
  destruct (isBase64 c) eqn:B; simpl; [rewrite B|]; exact IH.
Qed.

Lemma keep_base64_id (s : jsstring) :
  forallb isBase64 s = true -> keep_base64 s = s.
Proof.
  unfold keep_base64. induction s as [|c s IH]; simpl; [reflexivity|].
  intros H. apply andb_true_iff in H as [Hc Hs]. rewrite Hc, (IH Hs). reflexivity.
Qed.

Lemma body_of_pem (b64 : jsstring) :
  body_of (pem b64) = Some (wrap64 (cleanedB64 b64)).
Proof.
  unfold body_of, pem.
  replace (HEADER ++ [LF] ++ wrap64 (cleanedB64 b64) ++ [LF] ++ FOOTER ++ [LF])
    with ((HEADER ++ [LF]) ++ wrap64 (cleanedB64 b64) ++ [LF] ++ FOOTER ++ [LF])
    by (rewrite <- app_assoc; reflexivity).
  rewrite strip_prefix_app. apply strip_suffix_app.
Qed.

Lemma decode_join (lines : list jsstring) :
  (forall l, In l lines -> forallb isBase64 l = true) ->
  decode_body (join [LF] lines) = concat lines.
Proof.
  unfold decode_body.
  assert (K : forall l : jsstring, forallb isBase64 l = true ->
            filter (fun c => negb (is_line_break c)) l = l).
  { induction l as [|c l IH]; simpl; [reflexivity|]. intros H.
    apply andb_true_iff in H as [Hc Hl].
    rewrite (isBase64_not_line_break c Hc). simpl. rewrite (IH Hl). reflexivity. }
  induction lines as [|x [|y more] IH]; intros H; [reflexivity | |].
  - simpl. rewrite app_nil_r. apply K, H. left. reflexivity.
  - change (join [LF] (x :: y :: more)) with (x ++ [LF] ++ join [LF] (y :: more)).
    rewrite !filter_app. rewrite IH by (intros l Hl; apply H; right; exact Hl).
    rewrite K by (apply H; left; reflexivity). reflexivity.
Qed.

(* ================================================================= *)
(** ** Encoder: round trip and layout *)

(** C2: For every non-empty string [r] over the base64 alphabet, the body
    of [pem r] (the text between the header line and the footer line),
    with its line breaks removed, is exactly [r]. *)
Theorem pem_round_trip (r : jsstring) :
  r <> [] -> forallb isBase64 r = true ->
  option_map decode_body (body_of (pem r)) = Some r.
Proof.
  intros _ B. rewrite body_of_pem. unfold cleanedB64.
  rewrite (keep_base64_id r B), (wrap64_base64 r B). simpl. f_equal.
  rewrite decode_join.
  - apply lines64_concat. apply le_n.
  - intros l Hl. eapply lines64_each; eassumption.
Qed.

Lemma pem_round_trip_witness :
  payload70 <> []
  /\ forallb isBase64 payload70 = true
  /\ option_map decode_body (body_of (pem payload70)) = Some payload70.
Proof.
  assert (N : payload70 <> []) by (vm_compute; discriminate).
  assert (B : forallb isBase64 payload70 = true) by (vm_compute; reflexivity).
  exact (conj N (conj B (pem_round_trip payload70 N B))).
Defined.

Lemma base64_line_no_newline (l : jsstring) :
  forallb isBase64 l = true -> ~ In LF l.
Proof.
  intros B H. rewrite forallb_forall in B. specialize (B LF H). discriminate B.
Qed.

Lemma pem_one_trailing_newline (b64 : jsstring) : one_trailing_newline (pem b64).
Proof.
  unfold one_trailing_newline, pem.
  exists (HEADER ++ [LF] ++ wrap64 (cleanedB64 b64) ++ [LF]
          ++ lit "-----END CERTIFICATE----"), 45.
  split; [|discriminate].
  change FOOTER with (lit "-----END CERTIFICATE----" ++ [45]).
  rewrite <- !app_assoc. reflexivity.
Qed.

(** C8: For every non-empty string [r] over the base64 alphabet, [pem r]
    is the header line, then [r] cut into lines of exactly 64 characters
    (the last one possibly shorter, never empty, never padded: the lines
    put end to end are [r]), then the footer line, and the text ends in
    exactly one newline. *)
Theorem pem_layout (r : jsstring) :
  r <> [] -> forallb isBase64 r = true ->
  exists lines,
    pem r = HEADER ++ [LF] ++ join [LF] lines ++ [LF] ++ FOOTER ++ [LF]
    /\ concat lines = r
    /\ fixed_width_lines 64 lines
    /\ (forall l, In l lines -> ~ In LF l)
    /\ one_trailing_newline (pem r).
Proof.
  intros N B. exists (lines64 (length r) r). repeat split.
  - unfold pem, cleanedB64. rewrite (keep_base64_id r B), (wrap64_base64 r B).
    reflexivity.
  - apply lines64_concat, le_n.
  - apply lines64_nonempty; [exact N | apply le_n].
  - apply (lines64_widths (length r) r N (le_n _)).
  - apply (lines64_widths (length r) r N (le_n _)).
  - apply (lines64_widths (length r) r N (le_n _)).
  - intros l Hl. apply base64_line_no_newline.
    eapply lines64_each; eassumption.
  - apply pem_one_trailing_newline.
Qed.

Lemma pem_layout_witness :
  exists lines,
    pem payload70
    = HEADER ++ [LF] ++ join [LF] lines ++ [LF] ++ FOOTER ++ [LF]
    /\ concat lines = payload70
    /\ fixed_width_lines 64 lines
    /\ (forall l, In l lines -> ~ In LF l)
    /\ one_trailing_newline (pem payload70).
Proof.
  apply (pem_layout payload70).
  - vm_compute. discriminate.
  - vm_compute. reflexivity.
Defined.

(* ================================================================= *)
(** ** Extractor: the order of the strategies *)

(** C3: For every input text: when the well-formed PEM scan yields at
    least one payload, the extractor returns exactly that and evaluates
    no other strategy; the bare base64 scan is evaluated only when the PEM
    scan yields nothing, and the line-by-line salvage only when both
    yield nothing. *)
Theorem extraction_priority (raw : jsstring) :
  (pem_scan raw <> [] ->
     matches (extract raw) = pem_scan raw /\ applied (extract raw) = [PemScan])
  /\ (In Base64Scan (applied (extract raw)) -> pem_scan raw = [])
  /\ (In LineSalvage (applied (extract raw)) ->
       pem_scan raw = [] /\ base64_scan raw = []).
Proof.
  unfold extract, extract3, extract2, extract1. cbn [matches applied].
  destruct (pem_scan raw) as [|m1 ms1] eqn:E1; cbn [length Nat.eqb matches applied app].
  - destruct (base64_scan raw) as [|m2 ms2] eqn:E2;
      cbn [length Nat.eqb matches applied app].
    + split; [congruence | split; [reflexivity | split; reflexivity]].
    + split; [congruence | split; [reflexivity |]].
      intros [H|[H|[]]]; discriminate H.
  - split; [split; reflexivity | split; intros [H|[]]; discriminate H].
Qed.

Lemma extraction_priority_witness :
  pem_scan block_and_noise <> []
  /\ matches (extract block_and_noise) = pem_scan block_and_noise
  /\ applied (extract block_and_noise) = [PemScan].
Proof.
  assert (N : pem_scan block_and_noise <> []) by (vm_compute; discriminate).
  exact (conj N (proj1 (extraction_priority block_and_noise) N)).
Defined.

(* ================================================================= *)
(** ** Extractor: the well-formed PEM scan *)

Lemma find_literal_shorter (p s before rest : jsstring) :
  find_literal p s = Some (before, rest) ->
  (length rest + length p <= length s)%nat.
Proof.
  intros H. apply find_literal_Some in H. subst s.
  rewrite !length_app. lia.
Qed.

(** The rounds allotted to the scan are never used up: any larger
    allotment finds the same groups. *)
Lemma pem_groups_fuel (f1 f2 : nat) (s : jsstring) :
  (length s <= f1)%nat -> (length s <= f2)%nat ->
  pem_groups f1 s = pem_groups f2 s.
Proof.
  revert f2 s. induction f1 as [|f1 IH]; intros f2 s L1 L2.
  - destruct s; [|simpl in L1; lia]. destruct f2; reflexivity.
  - destruct f2 as [|f2].
    + destruct s; [reflexivity | simpl in L2; lia].
    + cbn [pem_groups].
      destruct (find_literal HEADER s) as [[b1 after]|] eqn:F1; [|reflexivity].
      destruct (find_literal FOOTER after) as [[g rest]|] eqn:F2; [|reflexivity].
      apply find_literal_shorter in F1. apply find_literal_shorter in F2.
      change (length HEADER) with 27%nat in F1.
      f_equal. apply IH; lia.
Qed.

(** Every group of the scan stands in the text between a header and a
    footer. *)
Lemma pem_groups_in_text (fuel : nat) (s g : jsstring) :
  In g (pem_groups fuel s) -> block_body s g.
Proof.
  revert s. induction fuel as [|fuel IH]; intros s H; [destruct H|].
  cbn [pem_groups] in H.
  destruct (find_literal HEADER s) as [[b1 rest1]|] eqn:F1; [|destruct H].
  destruct (find_literal FOOTER rest1) as [[g1 rest2]|] eqn:F2; [|destruct H].
  apply find_literal_Some in F1. apply find_literal_Some in F2.
  destruct H as [<-|H].
  - exists b1, rest2. subst. reflexivity.
  - destruct (IH _ H) as [before [after E]].
    exists (b1 ++ HEADER ++ g1 ++ FOOTER ++ before), after.
    subst. rewrite <- !app_assoc. reflexivity.
Qed.

Lemma remove_line_breaks_no_LF_bounded (n : nat) (s : jsstring) :
  (length s <= n)%nat -> ~ In LF (remove_line_breaks s).
Proof.
  revert s. induction n as [|n IH]; intros s L.
  - destruct s; [simpl; tauto | simpl in L; lia].
  - destruct s as [|c s]; [simpl; tauto|].
    cbn [remove_line_breaks]. simpl in L.
    destruct (N.eqb_spec c LF) as [->|NL]; [apply IH; lia|].
    destruct (N.eqb_spec c CR) as [->|NC].
    + destruct s as [|d s]; [simpl; intuition discriminate|].
      destruct (N.eqb_spec d LF) as [->|ND].
      * apply IH. simpl in L. lia.
      * intros [H|H]; [discriminate H|]. revert H. apply IH. lia.
    + intros [H|H]; [congruence|]. revert H. apply IH. lia.
Qed.

Lemma remove_line_breaks_no_LF (s : jsstring) : ~ In LF (remove_line_breaks s).
Proof. apply (remove_line_breaks_no_LF_bounded (length s)), le_n. Qed.

(** C7: Each payload of the well-formed PEM scan is the text [g] found
    between a header and its footer, with every line feed (and the
    carriage return right before one) removed and the white space at both
    ends trimmed: it holds no newline character and neither starts nor
    ends with white space.  White space and other characters inside the
    body are kept at this stage; the cleaning that precedes the encoding
    ([cleanedB64]) is what leaves base64-alphabet characters only. *)
Theorem pem_scan_payload (raw r : jsstring) :
  In r (pem_scan raw) ->
  exists g, block_body raw g
            /\ r = trim (remove_line_breaks g)
            /\ ~ In LF r
            /\ no_edge_whitespace r
            /\ forallb isBase64 (cleanedB64 r) = true.
Proof.
  unfold pem_scan. intros H. apply in_map_iff in H as [g [<- Hg]].
  exists g. split; [eapply pem_groups_in_text; exact Hg|].
  split; [reflexivity|]. split; [|split].
  - intros HL. apply trim_incl in HL. exact (remove_line_breaks_no_LF g HL).
  - apply trim_edges.
  - apply keep_base64_all.
Qed.

Lemma pem_scan_payload_witness :
  In (lit "QUJD RUZH") (pem_scan spaced_block)
  /\ exists g, block_body spaced_block g
               /\ lit "QUJD RUZH" = trim (remove_line_breaks g)
               /\ ~ In LF (lit "QUJD RUZH")
               /\ no_edge_whitespace (lit "QUJD RUZH")
               /\ forallb isBase64 (cleanedB64 (lit "QUJD RUZH")) = true.
Proof.
  assert (H : In (lit "QUJD RUZH") (pem_scan spaced_block))
    by (vm_compute; left; reflexivity).
  exact (conj H (pem_scan_payload spaced_block (lit "QUJD RUZH") H)).
Defined.

(** The claim C7 as the specification words it fails: the scan keeps the
    space inside the body of [spaced_block]. *)
Lemma pem_scan_keeps_inner_whitespace :
  ~ (forall r, In r (pem_scan spaced_block) ->
               whitespace_free r /\ forallb isBase64 r = true).
Proof.
  intros H.
  destruct (H (lit "QUJD RUZH")) as [_ B].
  - vm_compute. left. reflexivity.
  - vm_compute in B. discriminate B.
Qed.

(** C6: The specification wants an empty payload discarded.  The script
    does not do it: on a block with nothing between header and footer the
    scan yields one empty payload, the run completes, and [cert-1.pem] is
    written with an empty body. *)
Theorem empty_block_is_emitted :
  matches (extract empty_block) = [[]]
  /\ status (main (run_on empty_block)) = Completed
  /\ In (WriteFile (CertFile 1) (Text (HEADER ++ [LF] ++ [] ++ [LF] ++ FOOTER ++ [LF])))
       (effects (main (run_on empty_block))).
Proof.
  split; [vm_compute; reflexivity|].
  split; [vm_compute; reflexivity|].
  vm_compute. right. left. reflexivity.
Qed.

(* ================================================================= *)
(** ** Extractor: the line-by-line salvage *)

Lemma salvage_loop_snoc (lines : list jsstring) (l : jsstring) :
  salvage_loop (lines ++ [l]) = salvage_step (salvage_loop lines) l.
Proof. unfold salvage_loop. rewrite fold_left_app. reflexivity. Qed.

Lemma emitted_from_snoc (opened : list jsstring -> Prop)
    (lines : list jsstring) (l r : jsstring) :
  emitted_from opened lines r -> emitted_from opened (lines ++ [l]) r.
Proof.
  intros [before [seg [e [after [E H]]]]].
  exists before, seg, e, (after ++ [l]). split; [|exact H].
  rewrite E, <- !app_assoc. reflexivity.
Qed.

Lemma base64_lines_concat (seg : list jsstring) :
  forallb isBase64 (concat (filter is_base64_line seg)) = true.
Proof.
  induction seg as [|l seg IH]; simpl; [reflexivity|].
  destruct (is_base64_line l) eqn:H; [|exact IH].
  simpl. rewrite forallb_app, IH.
  unfold is_base64_line in H. apply andb_true_iff in H as [_ ->]. reflexivity.
Qed.

Lemma remove_whitespace_base64 (s : jsstring) :
  forallb isBase64 s = true -> remove_whitespace s = s.
Proof.
  unfold remove_whitespace. induction s as [|c s IH]; simpl; [reflexivity|].
  intros H. apply andb_true_iff in H as [Hc Hs].
  rewrite (isBase64_not_whitespace c Hc). simpl. rewrite (IH Hs). reflexivity.
Qed.

(** What the loop holds after [lines]: the buffer is made of the base64
    lines read since the last marker, and every payload pushed so far was
    closed by an END marker. *)
Lemma salvage_invariant (lines : list jsstring) :
  (exists before seg,
      lines = before ++ seg /\ opened_anyhow before
      /\ (forall l, In l seg -> is_marker l = false)
      /\ buffer (salvage_loop lines) = concat (filter is_base64_line seg))
  /\ (forall r, In r (potential (salvage_loop lines)) ->
        emitted_from opened_anyhow lines r /\ forallb isBase64 r = true).
Proof.
  induction lines as [|l lines IH] using rev_ind.
  - split.
    + exists [], []. split; [reflexivity|]. split; [left; reflexivity|].
      split; [intros l []|reflexivity].
    + intros r [].
  - rewrite salvage_loop_snoc.
    destruct IH as [[before [seg [E [O [M B]]]]] P].
    assert (Keep : forall r, In r (potential (salvage_loop lines)) ->
              emitted_from opened_anyhow (lines ++ [l]) r
              /\ forallb isBase64 r = true).
    { intros r Hr. destruct (P r Hr) as [H1 H2].
      split; [apply emitted_from_snoc, H1 | exact H2]. }
    assert (Fresh : is_marker l = true ->
              exists before' seg',
                lines ++ [l] = before' ++ seg' /\ opened_anyhow before'
                /\ (forall x, In x seg' -> is_marker x = false)
                /\ @nil char = concat (filter is_base64_line seg')).
    { intros Hm. exists (lines ++ [l]), []. split; [rewrite app_nil_r; reflexivity|].
      split; [right; exists lines, l; auto|].
      split; [intros x []|reflexivity]. }
    unfold salvage_step.
    destruct (is_begin_marker l) eqn:Hb;
      [|destruct (is_end_marker l) eqn:He;
        [|destruct (is_base64_line l) eqn:H64]]; cbn [buffer potential].
    + split; [apply Fresh; unfold is_marker; rewrite Hb; reflexivity | exact Keep].
    + split; [apply Fresh; unfold is_marker; rewrite He; apply orb_true_r|].
      intros r Hr.
      destruct (0 <? length (buffer (salvage_loop lines)))%nat eqn:Hlen;
        [|apply Keep, Hr].
      apply in_app_iff in Hr as [Hr|[<-|[]]]; [apply Keep, Hr|].
      rewrite B, (remove_whitespace_base64 _ (base64_lines_concat seg)).
      split; [|apply base64_lines_concat].
      exists before, seg, l, []. split; [rewrite E, <- app_assoc; reflexivity|].
      split; [exact O|]. split; [exact He|]. split; [exact M|].
      split; [reflexivity|].
      apply Nat.ltb_lt in Hlen. rewrite B in Hlen.
      intros Z. rewrite Z in Hlen. simpl in Hlen. lia.
    + split; [|exact Keep].
      exists before, (seg ++ [l]). split; [rewrite E, app_assoc; reflexivity|].
      split; [exact O|]. split.
      * intros x Hx. apply in_app_iff in Hx as [Hx|[<-|[]]]; [apply M, Hx|].
        unfold is_marker. rewrite Hb, He. reflexivity.
      * rewrite filter_app, concat_app. simpl. rewrite H64. simpl.
        rewrite app_nil_r, B. reflexivity.
    + split; [|exact Keep].
      exists before, (seg ++ [l]). split; [rewrite E, app_assoc; reflexivity|].
      split; [exact O|]. split.
      * intros x Hx. apply in_app_iff in Hx as [Hx|[<-|[]]]; [apply M, Hx|].
        unfold is_marker. rewrite Hb, He. reflexivity.
      * rewrite filter_app, concat_app. simpl. rewrite H64. simpl.
        rewrite app_nil_r. exact B.
Qed.

(** Lines without an END marker push nothing. *)
Lemma salvage_open_tail (tail : list jsstring) (st : Salvage) :
  (forall l, In l tail -> is_end_marker l = false) ->
  potential (fold_left salvage_step tail st) = potential st.
Proof.
  revert st. induction tail as [|l tail IH]; intros st H; [reflexivity|].
  cbn [fold_left]. rewrite IH by (intros x Hx; apply H; right; exact Hx).
  unfold salvage_step. rewrite (H l (or_introl eq_refl)).
  destruct (is_begin_marker l); [reflexivity|].
  destruct (is_base64_line l); reflexivity.
Qed.

(** C5: In the line-by-line salvage a payload is pushed only when a line
    equal (case-insensitively) to the END marker is reached with a
    non-empty buffer; the payload is made of the base64-alphabet lines
    read since the most recent BEGIN or END marker line, or since the
    first line when there was none: a BEGIN marker is not required.  What
    the buffer holds at the end of the input pushes nothing. *)
Theorem salvage_emission (lines : list jsstring) :
  (forall r, In r (salvage_lines lines) ->
     emitted_from opened_anyhow lines r /\ forallb isBase64 r = true)
  /\ (forall tail, (forall l, In l tail -> is_end_marker l = false) ->
        salvage_lines (lines ++ tail) = salvage_lines lines).
Proof.
  split.
  - apply (proj2 (salvage_invariant lines)).
  - intros tail H. unfold salvage_lines, salvage_loop.
    rewrite fold_left_app. apply salvage_open_tail, H.
Qed.

Lemma salvage_emission_witness :
  In (lit "QUJDRUZH") (salvage_lines broken_lines)
  /\ emitted_from opened_anyhow broken_lines (lit "QUJDRUZH")
  /\ salvage_lines (firstn 5 broken_lines ++ skipn 5 broken_lines)
     = salvage_lines (firstn 5 broken_lines).
Proof.
  assert (H : In (lit "QUJDRUZH") (salvage_lines broken_lines))
    by (vm_compute; left; reflexivity).
  split; [exact H|]. split.
  - exact (proj1 (proj1 (salvage_emission broken_lines) _ H)).
  - apply (proj2 (salvage_emission (firstn 5 broken_lines))).
    intros l Hl. vm_compute in Hl.
    destruct Hl as [<-|[<-|[]]]; vm_compute; reflexivity.
Defined.

(** The claim C5 as the specification words it fails: [headless_block]
    reaches the salvage, which pushes a payload although no line of the
    input is a BEGIN marker. *)
Lemma salvage_without_begin_marker :
  applied (extract headless_block) = [PemScan; Base64Scan; LineSalvage]
  /\ matches (extract headless_block) = [lit "QUJD"]
  /\ ~ (forall r, In r (line_salvage headless_block) ->
          emitted_from opened_by_begin
            (List.map trim (split_lines headless_block)) r).
Proof.
  split; [vm_compute; reflexivity|]. split; [vm_compute; reflexivity|].
  intros H.
  destruct (H (lit "QUJD")) as [before [seg [e [after [E [[b' [b [Eb Hb]]] _]]]]]].
  - vm_compute. left. reflexivity.
  - assert (In b (List.map trim (split_lines headless_block))) as Hin.
    { rewrite E, Eb. apply in_or_app. left. apply in_or_app. right.
      left. reflexivity. }
    vm_compute in Hin.
    destruct Hin as [<-|[<-|[<-|[]]]]; vm_compute in Hb; discriminate Hb.
Qed.

(* ================================================================= *)
(** ** Classifier *)

Section Indexed.

Context {A : Type}.

Lemma find_indexed_from (p : A -> bool) (l : list A) (k : nat) :
  match find (fun e => p (snd e)) (combine (seq k (length l)) l) with
  | Some (i, m) =>
      (k <= i)%nat /\ nth_error l (i - k) = Some m /\ p m = true
      /\ forall j x, (j < i - k)%nat -> nth_error l j = Some x -> p x = false
  | None => forall x, In x l -> p x = false
  end.
Proof.
  revert k. induction l as [|a l IH]; intros k; cbn [length seq combine find].
  - intros x [].
  - cbn [snd]. destruct (p a) eqn:Pa.
    + rewrite Nat.sub_diag. repeat split; auto. intros j x Hj. lia.
    + specialize (IH (S k)).
      destruct (find (fun e => p (snd e)) (combine (seq (S k) (length l)) l))
        as [[i m]|].
      * destruct IH as [Hk [Hn [Hp Hmin]]].
        replace (i - k)%nat with (S (i - S k)) by lia.
        repeat split; auto; [lia|].
        intros [|j] x Hj Hx; simpl in Hx.
        -- congruence.
        -- apply (Hmin j x); [lia | exact Hx].
      * intros x [<-|Hx]; [exact Pa | apply IH, Hx].
Qed.

Lemma filter_index_from (n k : nat) (l : list A) :
  map snd (filter (fun e => negb (fst e =? n)%nat) (combine (seq k (length l)) l))
  = if (n <? k)%nat then l else firstn (n - k) l ++ skipn (S (n - k)) l.
Proof.
  revert k. induction l as [|a l IH]; intros k; cbn [length seq combine filter].
  - destruct (n <? k)%nat; [reflexivity|]. rewrite firstn_nil, skipn_nil. reflexivity.
  - cbn [fst].
    destruct (Nat.eqb_spec k n) as [E|Hne]; cbn [negb map snd];
      rewrite (IH (S k)).
    + subst k. rewrite Nat.ltb_irrefl, Nat.sub_diag.
      assert ((n <? S n)%nat = true) as -> by (apply Nat.ltb_lt; lia).
      reflexivity.
    + destruct (Nat.ltb_spec n k) as [Hlt|Hge].
      * assert ((n <? S k)%nat = true) as -> by (apply Nat.ltb_lt; lia).
        reflexivity.
      * assert ((n <? S k)%nat = false) as -> by (apply Nat.ltb_ge; lia).
        replace (n - k)%nat with (S (n - S k)) by lia. reflexivity.
Qed.

Lemma indexed_snd_from (k : nat) (l : list A) :
  map snd (combine (seq k (length l)) l) = l.
Proof.
  revert k. induction l as [|a l IH]; intros k; [reflexivity|].
  cbn [length seq combine map snd]. rewrite IH. reflexivity.
Qed.

Lemma indexed_snd (l : list A) : map snd (indexed l) = l.
Proof. apply indexed_snd_from. Qed.

End Indexed.

Lemma value_eqb_eq (a b : option jsstring) : value_eqb a b = true <-> a = b.
Proof.
  destruct a as [x|], b as [y|]; simpl; try (split; congruence).
  rewrite str_eqb_eq. split; congruence.
Qed.

Lemma includes_In (l : list (option jsstring)) (v : option jsstring) :
  includes l v = true <-> In v l.
Proof.
  unfold includes. rewrite existsb_exists. split.
  - intros [x [Hx E]]. apply value_eqb_eq in E. subst. exact Hx.
  - intros H. exists v. split; [exact H | apply value_eqb_eq; reflexivity].
Qed.

Lemma subjectStrings_In (meta : list Meta) (v : option jsstring) :
  In v (subjectStrings meta)
  <-> truthy v = true /\ exists m, In m meta /\ subject m = v.
Proof.
  unfold subjectStrings, subjects. rewrite in_map_iff. split.
  - intros [[v' i] [E H]]. cbn [fst] in E. subst v'.
    apply filter_In in H as [H T]. cbn [fst] in T.
    apply in_map_iff in H as [e [Ee He]]. injection Ee as Ev _.
    split; [exact T|]. exists (snd e). split; [|exact Ev].
    rewrite <- (indexed_snd meta). apply in_map, He.
  - intros [T [m [Hm E]]].
    rewrite <- (indexed_snd meta) in Hm. apply in_map_iff in Hm as [e [Ee He]].
    exists (subject (snd e), fst e). cbn [fst]. split; [congruence|].
    apply filter_In. cbn [fst]. split; [|congruence].
    apply in_map_iff. exists e. split; [reflexivity | exact He].
Qed.

Lemma truthy_Some (v : option jsstring) :
  truthy v = true <-> exists s, v = Some s /\ s <> [].
Proof.
  destruct v as [[|c t]|]; simpl.
  - split; [discriminate|]. intros [s [E N]]. injection E as <-. congruence.
  - split; [|reflexivity]. intros _. exists (c :: t).
    split; [reflexivity | discriminate].
  - split; [discriminate|]. intros [s [E _]]. discriminate E.
Qed.

(** The test of the script is the candidate notion for non-empty issuers. *)
Lemma is_candidate_spec (meta : list Meta) (m : Meta) :
  is_candidate meta m = true <-> nonempty_issuer_unmatched meta m.
Proof.
  unfold is_candidate, nonempty_issuer_unmatched.
  rewrite andb_true_iff, negb_true_iff, truthy_Some. split.
  - intros [[s [E N]] I]. exists s. split; [exact E|]. split; [exact N|].
    intros m' Hm' Es.
    assert (includes (subjectStrings meta) (issuer m) = true) as K; [|congruence].
    apply includes_In, subjectStrings_In. rewrite E. split.
    + apply truthy_Some. eauto.
    + eauto.
  - intros [s [E [N U]]]. split; [eauto|].
    destruct (includes (subjectStrings meta) (issuer m)) eqn:I; [|reflexivity].
    apply includes_In, subjectStrings_In in I as [_ [m' [Hm' Es]]].
    exfalso. apply (U m' Hm'). congruence.
Qed.

Lemma candidate_spec (meta : list Meta) :
  match candidate meta with
  | Some (i, m) =>
      nth_error meta i = Some m /\ is_candidate meta m = true
      /\ forall j x, (j < i)%nat -> nth_error meta j = Some x ->
                     is_candidate meta x = false
  | None => forall x, In x meta -> is_candidate meta x = false
  end.
Proof.
  unfold candidate, indexed.
  pose proof (find_indexed_from (is_candidate meta) meta 0) as H.
  destruct (find (fun e => is_candidate meta (snd e))
              (combine (seq 0 (length meta)) meta)) as [[i m]|]; [|exact H].
  rewrite Nat.sub_0_r in H. tauto.
Qed.

Lemma chainCerts_without_leaf (meta : list Meta) :
  chainCerts meta = without_index (leafIndex meta) meta.
Proof.
  unfold chainCerts, indexed, without_index.
  rewrite (filter_index_from (leafIndex meta) 0 meta).
  cbn [Nat.ltb Nat.leb]. rewrite Nat.sub_0_r. reflexivity.
Qed.

Lemma leaf_defined (meta : list Meta) :
  meta <> [] -> exists m, leaf meta = Some m.
Proof.
  intros N. unfold leaf, leafIndex.
  pose proof (candidate_spec meta) as H.
  destruct (candidate meta) as [[i m]|].
  - exists m. tauto.
  - destruct meta as [|m meta]; [congruence|]. exists m. reflexivity.
Qed.

(** C1: For every sequence of certificate records the leaf is the first
    one, in extraction order, whose issuer is present, is not the empty
    string and equals no subject of the sequence; when there is none the
    leaf is index 0; the classification is a total function (the leaf is
    defined whenever the sequence is not empty); and the chain is the
    sequence without the leaf, order kept. *)
Theorem leaf_selection (meta : list Meta) :
  leaf_policy nonempty_issuer_unmatched meta.
Proof.
  unfold leaf_policy. pose proof (candidate_spec meta) as C.
  split; [|split; [|split]].
  - intros i [[m [Hn Hp]] Hmin]. unfold leafIndex.
    apply is_candidate_spec in Hp.
    destruct (candidate meta) as [[i' m']|].
    + destruct C as [Hn' [Hp' Hmin']].
      destruct (Nat.lt_trichotomy i' i) as [L|[E|G]]; [|exact E|].
      * exfalso. apply (Hmin i' m' L Hn'). apply is_candidate_spec, Hp'.
      * rewrite (Hmin' i m G Hn) in Hp. discriminate Hp.
    + apply nth_error_In in Hn. rewrite (C m Hn) in Hp. discriminate Hp.
  - intros None. unfold leafIndex.
    destruct (candidate meta) as [[i' m']|]; [|reflexivity].
    destruct C as [Hn' [Hp' _]]. exfalso.
    apply (None m' (nth_error_In _ _ Hn')). apply is_candidate_spec, Hp'.
  - apply chainCerts_without_leaf.
  - apply leaf_defined.
Qed.

Lemma leaf_selection_witness :
  first_at (nonempty_issuer_unmatched meta_ca_first) meta_ca_first 1
  /\ leafIndex meta_ca_first = 1%nat.
Proof.
  assert (F : first_at (nonempty_issuer_unmatched meta_ca_first) meta_ca_first 1).
  { split.
    - eexists. split; [vm_compute; reflexivity|].
      apply is_candidate_spec. vm_compute. reflexivity.
    - intros [|[|j]] m Hj Hm; [|lia|lia].
      intros P. apply is_candidate_spec in P.
      vm_compute in Hm. injection Hm as <-. vm_compute in P. discriminate P. }
  exact (conj F (proj1 (leaf_selection meta_ca_first) 1%nat F)).
Defined.

(** The claim C1 as the specification words it fails: an issuer that is
    present but empty is passed over, and the leaf is the next candidate. *)
Lemma empty_issuer_is_passed_over :
  ~ leaf_policy issuer_unmatched meta_empty_issuer.
Proof.
  intros [H _]. specialize (H 0%nat).
  assert (F : first_at (issuer_unmatched meta_empty_issuer) meta_empty_issuer 0).
  { split; [|intros j m Hj; lia].
    eexists. split; [vm_compute; reflexivity|].
    exists []. split; [reflexivity|].
    intros m' Hm' E. vm_compute in Hm'.
    destruct Hm' as [<-|[<-|[]]]; vm_compute in E; discriminate E. }
  specialize (H F). vm_compute in H. discriminate H.
Qed.

(* ================================================================= *)
(** ** The run as a whole *)

Lemma read_back_app (a : Artifact) (l1 l2 : list Effect) :
  read_back a (l1 ++ l2)
  = match read_back a l2 with
    | Some c => Some c
    | None => read_back a l1
    end.
Proof.
  induction l1 as [|e l1 IH]; simpl.
  - destruct (read_back a l2); reflexivity.
  - rewrite IH. destruct (read_back a l2); reflexivity.
Qed.

Lemma write_chain_shape (chain : list Meta) :
  exists msg,
    write_chain chain
    = [WriteFile CertificateChainPem (Text (combined chain)); Print msg].
Proof.
  unfold write_chain. destruct chain as [|m chain]; simpl.
  - exists MsgEmptyChain. reflexivity.
  - exists MsgWroteChain. reflexivity.
Qed.

Lemma write_bundle_completes (before : list Effect) (meta : list Meta) :
  meta <> [] ->
  exists lf msg,
    leaf meta = Some lf
    /\ write_bundle before meta
       = {| status := Completed;
            effects := before ++ bundle_effects lf meta msg |}.
Proof.
  intros N. destruct (leaf_defined meta N) as [lf L].
  destruct (write_chain_shape (chainCerts meta)) as [msg W].
  exists lf, msg. split; [exact L|].
  unfold write_bundle. rewrite L, W.
  rewrite !read_back_app. cbn [read_back artifact_eqb app].
  unfold bundle_effects. rewrite <- app_assoc. reflexivity.
Qed.

Lemma indexed_length {A : Type} (l : list A) : length (indexed l) = length l.
Proof.
  unfold indexed. rewrite length_combine, length_seq. apply Nat.min_id.
Qed.

Lemma metadata_nonempty (o : Artifact -> jsstring -> option jsstring)
    (ms : list jsstring) :
  ms <> [] -> metadata o (pemFiles_of ms) <> [].
Proof.
  intros N E. apply (f_equal (@length Meta)) in E.
  unfold metadata, pemFiles_of in E.
  rewrite !length_map, indexed_length in E.
  destruct ms; [congruence | discriminate E].
Qed.

Lemma length_zero_false {A : Type} (l : list A) :
  l <> [] -> (length l =? 0)%nat = false.
Proof. destruct l; [congruence | reflexivity]. Qed.

(** The four ways a run can go. *)
Lemma main_cases (env : Env) :
  ((length (argv env) < 3)%nat
   /\ main env = {| status := Exit 2; effects := [Print MsgUsage] |})
  \/ ((3 <= length (argv env))%nat
      /\ readFileSync env (nth 2 (argv env) []) = None
      /\ main env = {| status := Uncaught; effects := [] |})
  \/ (exists raw,
        (3 <= length (argv env))%nat
        /\ readFileSync env (nth 2 (argv env) []) = Some raw
        /\ matches (extract raw) = []
        /\ main env
           = {| status := Exit 3;
                effects := (if warned (extract raw) then [Print MsgHeuristic] else [])
                           ++ [Print MsgNoCertificates] |})
  \/ (exists raw lf msg,
        reads_certificates env raw
        /\ leaf (metadata (openssl env) (pemFiles_of (matches (extract raw))))
           = Some lf
        /\ main env
           = {| status := Completed;
                effects :=
                  setup_effects env raw
                  ++ bundle_effects lf
                       (metadata (openssl env) (pemFiles_of (matches (extract raw))))
                       msg |}).
Proof.
  unfold main.
  destruct (Nat.ltb_spec (length (argv env)) 3) as [Lt|Ge]; [left; auto|].
  right.
  destruct (readFileSync env (nth 2 (argv env) [])) as [raw|] eqn:R; [|left; auto].
  right.
  destruct (matches (extract raw)) as [|m ms] eqn:M.
  - left. exists raw. rewrite M. auto.
  - right. cbn [length Nat.eqb]. rewrite <- M.
    assert (N : matches (extract raw) <> []) by (rewrite M; discriminate).
    destruct (write_bundle_completes
                ((if warned (extract raw) then [Print MsgHeuristic] else [])
                 ++ (if outDirExists env then [] else [Mkdir])
                 ++ write_certs (pemFiles_of (matches (extract raw))))
                (metadata (openssl env) (pemFiles_of (matches (extract raw))))
                (metadata_nonempty _ _ N)) as [lf [msg [L W]]].
    exists raw, lf, msg. split; [|split; [exact L | exact W]].
    unfold reads_certificates. auto.
Qed.

(** A run that reads certificates completes. *)
Lemma main_completes (env : Env) (raw : jsstring) :
  reads_certificates env raw ->
  exists lf msg,
    leaf (metadata (openssl env) (pemFiles_of (matches (extract raw)))) = Some lf
    /\ main env
       = {| status := Completed;
            effects :=
              setup_effects env raw
              ++ bundle_effects lf
                   (metadata (openssl env) (pemFiles_of (matches (extract raw))))
                   msg |}.
Proof.
  intros [A [R N]].
  destruct (main_cases env) as [[Lt _]|[[_ [R' _]]|[[raw' [_ [R' [M _]]]]|H]]].
  - lia.
  - congruence.
  - assert (raw' = raw) by congruence. subst. congruence.
  - destruct H as [raw' [lf [msg [[_ [R' _]] [L E]]]]].
    assert (raw' = raw) by congruence. subst. eauto.
Qed.

Lemma indexed_nth_from {A : Type} (k i : nat) (l : list A) (x : A) :
  nth_error l i = Some x -> In ((k + i)%nat, x) (combine (seq k (length l)) l).
Proof.
  revert k i. induction l as [|a l IH]; intros k [|i] H; simpl in H; try discriminate.
  - injection H as <-. rewrite Nat.add_0_r. left. reflexivity.
  - cbn [length seq combine]. right.
    replace (k + S i)%nat with (S k + i)%nat by lia. apply IH, H.
Qed.

Lemma indexed_nth {A : Type} (i : nat) (l : list A) (x : A) :
  nth_error l i = Some x -> In (i, x) (indexed l).
Proof. apply (indexed_nth_from 0 i l x). Qed.

Lemma indexed_In_snd {A : Type} (e : nat * A) (l : list A) :
  In e (indexed l) -> In (snd e) l.
Proof.
  intros H. rewrite <- (indexed_snd l). apply in_map, H.
Qed.

Lemma write_certs_nth (ms : list jsstring) (i : nat) (b64 : jsstring) :
  nth_error ms i = Some b64 ->
  In (WriteFile (CertFile (i + 1)) (Text (pem b64))) (write_certs (pemFiles_of ms)).
Proof.
  intros H. unfold write_certs, pemFiles_of. apply in_flat_map.
  exists (pemFile_of (i, b64)). split.
  - apply in_map, indexed_nth, H.
  - left. reflexivity.
Qed.

Lemma write_certs_In (ms : list jsstring) (a : Artifact) (c : Content) :
  In (WriteFile a c) (write_certs (pemFiles_of ms)) ->
  exists n b64, a = CertFile n /\ In b64 ms /\ c = Text (pem b64).
Proof.
  unfold write_certs, pemFiles_of. intros H.
  apply in_flat_map in H as [p [Hp [H|[H|[]]]]]; [|discriminate H].
  apply in_map_iff in Hp as [[i b64] [<- He]].
  injection H as <- <-. exists (i + 1)%nat, b64.
  split; [reflexivity|]. split; [|reflexivity].
  apply (indexed_In_snd (i, b64)), He.
Qed.

Lemma empty_extraction_tried_all (raw : jsstring) :
  matches (extract raw) = [] ->
  applied (extract raw) = [PemScan; Base64Scan; LineSalvage]
  /\ warned (extract raw) = true.
Proof.
  unfold extract, extract3, extract2, extract1. cbn [matches applied warned].
  destruct (pem_scan raw) as [|m1 ms1]; cbn [length Nat.eqb matches applied warned app].
  - destruct (base64_scan raw) as [|m2 ms2];
      cbn [length Nat.eqb matches applied warned app].
    + auto.
    + discriminate.
  - discriminate.
Qed.

(** The outcomes of a run, by what the script tests.  Without an input
    path the process exits with code 2 and creates nothing.  When the list
    of payloads is empty after the three strategies it exits with code 3
    and creates nothing, not even the output directory.  When the list is
    not empty, whatever its payloads hold, the script runs to its end
    (exit code 0) and every artifact is written. *)
Theorem exit_outcomes (env : Env) :
  ((length (argv env) < 3)%nat ->
     status (main env) = Exit 2 /\ nothing_written (effects (main env)))
  /\ (forall raw,
        (3 <= length (argv env))%nat ->
        readFileSync env (nth 2 (argv env) []) = Some raw ->
        matches (extract raw) = [] ->
        applied (extract raw) = [PemScan; Base64Scan; LineSalvage]
        /\ status (main env) = Exit 3
        /\ nothing_written (effects (main env)))
  /\ (forall raw,
        reads_certificates env raw ->
        status (main env) = Completed
        /\ all_artifacts_written (length (matches (extract raw)))
             (effects (main env)))
  /\ (exit_code (Exit 2) <> exit_code (Exit 3)
      /\ exit_code (Exit 2) <> exit_code Completed
      /\ exit_code (Exit 3) <> exit_code Completed)
  /\ (status (main env) = Completed -> exists raw, reads_certificates env raw).
Proof.
  split; [|split; [|split; [|split]]].
  - intros Lt.
    destruct (main_cases env) as [[_ E]|[[Ge _]|[[raw [Ge _]]|[raw [lf [msg [[Ge _] _]]]]]]];
      try lia.
    rewrite E. split; reflexivity.
  - intros raw Ge R M.
    destruct (empty_extraction_tried_all raw M) as [Ha Hw].
    split; [exact Ha|].
    destruct (main_cases env)
      as [[Lt _]|[[_ [R' _]]|[[raw' [_ [R' [_ E]]]]|[raw' [lf [msg [[_ [R' N]] _]]]]]]].
    + lia.
    + congruence.
    + assert (raw' = raw) by congruence. subst raw'.
      rewrite E, Hw. split; reflexivity.
    + assert (raw' = raw) by congruence. subst raw'. congruence.
  - intros raw H. destruct (main_completes env raw H) as [lf [msg [_ E]]].
    rewrite E. cbn [status effects]. split; [reflexivity|].
    unfold all_artifacts_written, setup_effects, bundle_effects.
    split; [|split; [|split]].
    + intros i Hi.
      destruct (nth_error (matches (extract raw)) (i - 1)) as [b64|] eqn:Hn.
      * exists (Text (pem b64)). apply write_certs_nth in Hn.
        replace (i - 1 + 1)%nat with i in Hn by lia.
        apply in_or_app. left. apply in_or_app. right. apply in_or_app. right.
        exact Hn.
      * apply nth_error_None in Hn. lia.
    + eexists. apply in_or_app. right. left. reflexivity.
    + eexists. apply in_or_app. right. right. right. left. reflexivity.
    + eexists. apply in_or_app. right. do 4 right. left. reflexivity.
  - cbn [exit_code]. repeat split; discriminate.
  - intros C.
    destruct (main_cases env)
      as [[_ E]|[[_ [_ E]]|[[raw [_ [_ [_ E]]]]|[raw [lf [msg [H _]]]]]]];
      try (rewrite E in C; discriminate C).
    exists raw. exact H.
Qed.

Lemma reads_two_blocks : reads_certificates (run_on two_blocks) two_blocks.
Proof.
  unfold reads_certificates. split; [vm_compute; lia|].
  split; [reflexivity | vm_compute; discriminate].
Defined.

Lemma exit_outcomes_witness :
  (status (main run_without_argument) = Exit 2
   /\ nothing_written (effects (main run_without_argument)))
  /\ (status (main (run_on [])) = Exit 3
      /\ nothing_written (effects (main (run_on []))))
  /\ (status (main (run_on two_blocks)) = Completed
      /\ all_artifacts_written 2 (effects (main (run_on two_blocks)))).
Proof.
  split; [|split].
  - apply (proj1 (exit_outcomes run_without_argument)). vm_compute. lia.
  - apply (proj1 (proj2 (exit_outcomes (run_on []))) []).
    + vm_compute. lia.
    + reflexivity.
    + vm_compute. reflexivity.
  - exact (proj1 (proj2 (proj2 (exit_outcomes (run_on two_blocks))))
             two_blocks reads_two_blocks).
Defined.

(** C9: The specification wants a run that extracted no certificate never
    to be treated as a success.  The script only tests the length of the
    list of payloads.  On a text that holds 200 spaces between two [#],
    and no certificate, the bare base64 scan yields one payload that is
    empty once its white space is removed; the list has length 1, so the
    exit with code 3 is skipped, the run completes with exit code 0 and
    every artifact is written, [cert-1.pem] with an empty body. *)
Theorem payloadless_run_is_a_success :
  matches (extract hash_and_spaces) = [[]]
  /\ applied (extract hash_and_spaces) = [PemScan; Base64Scan]
  /\ map cleanedB64 (matches (extract hash_and_spaces)) = [[]]
  /\ status (main (run_on hash_and_spaces)) = Completed
  /\ exit_code (status (main (run_on hash_and_spaces))) = 0%Z
  /\ all_artifacts_written 1 (effects (main (run_on hash_and_spaces)))
  /\ In (WriteFile (CertFile 1)
           (Text (HEADER ++ [LF] ++ [] ++ [LF] ++ FOOTER ++ [LF])))
        (effects (main (run_on hash_and_spaces))).
Proof.
  split; [vm_compute; reflexivity|].
  split; [vm_compute; reflexivity|].
  split; [vm_compute; reflexivity|].
  split; [vm_compute; reflexivity|].
  split; [vm_compute; reflexivity|].
  split.
  - unfold all_artifacts_written. split; [|split; [|split]].
    + intros i Hi. assert (i = 1%nat) as -> by lia.
      exists (Text (pem [])). vm_compute. right. left. reflexivity.
    + exists (Text (pem [])). vm_compute. do 3 right. left. reflexivity.
    + exists (Text []). vm_compute. do 5 right. left. reflexivity.
    + exists (UploadJson (pem []) []). vm_compute. do 7 right. left. reflexivity.
  - vm_compute. right. left. reflexivity.
Qed.

(* ================================================================= *)
(** ** Bundle writer *)

Lemma wrap64_lines (b64 : jsstring) :
  exists lines,
    wrap64 (cleanedB64 b64) = join [LF] lines
    /\ (forall l, In l lines -> forallb isBase64 l = true)
    /\ concat lines = keep_base64 b64.
Proof.
  unfold cleanedB64.
  exists (lines64 (length (keep_base64 b64)) (keep_base64 b64)).
  split; [apply wrap64_base64, keep_base64_all|]. split.
  - intros l Hl. eapply lines64_each; [apply keep_base64_all | exact Hl].
  - apply lines64_concat, le_n.
Qed.

(** C10: Every per-certificate PEM file the script writes is [pem b64]
    for an extracted payload [b64], and its body (between the header line
    and the footer line) is made of lines that hold base64-alphabet
    characters only: put end to end they are [b64] with every character
    outside the alphabet removed. *)
Theorem written_bodies_are_base64 (env : Env) (n : nat) (content : Content) :
  In (WriteFile (CertFile n) content) (effects (main env)) ->
  exists b64 body lines,
    content = Text (pem b64)
    /\ body_of (pem b64) = Some body
    /\ body = join [LF] lines
    /\ (forall l, In l lines -> forallb isBase64 l = true)
    /\ concat lines = keep_base64 b64.
Proof.
  intros H.
  destruct (main_cases env)
    as [[_ E]|[[_ [_ E]]|[[raw [_ [_ [_ E]]]]|[raw [lf [msg [_ [_ E]]]]]]]];
    rewrite E in H; cbn [effects] in H.
  - destruct H as [H|[]]. discriminate H.
  - destruct H.
  - apply in_app_iff in H as [H|[H|[]]]; [|discriminate H].
    destruct (warned (extract raw)); [|destruct H].
    destruct H as [H|[]]. discriminate H.
  - unfold setup_effects, bundle_effects in H.
    apply in_app_iff in H as [H|H].
    + apply in_app_iff in H as [H|H].
      { destruct (warned (extract raw)); [|destruct H].
        destruct H as [H|[]]. discriminate H. }
      apply in_app_iff in H as [H|H].
      { destruct (outDirExists env); [destruct H|].
        destruct H as [H|[]]. discriminate H. }
      apply write_certs_In in H as [k [b64 [_ [_ ->]]]].
      destruct (wrap64_lines b64) as [lines [E1 [E2 E3]]].
      exists b64, (wrap64 (cleanedB64 b64)), lines.
      split; [reflexivity|]. split; [apply body_of_pem|]. auto.
    + repeat (destruct H as [H|H]; [discriminate H|]). destruct H.
Qed.

Lemma written_bodies_are_base64_witness :
  In (WriteFile (CertFile 1) (Text (pem (lit "QU#JD  (RUZH)	!"))))
     (effects (main (run_on garbage_block)))
  /\ exists b64 body lines,
       Text (pem (lit "QU#JD  (RUZH)	!")) = Text (pem b64)
       /\ body_of (pem b64) = Some body
       /\ body = join [LF] lines
       /\ (forall l, In l lines -> forallb isBase64 l = true)
       /\ concat lines = keep_base64 b64.
Proof.
  assert (H : In (WriteFile (CertFile 1) (Text (pem (lit "QU#JD  (RUZH)	!"))))
                (effects (main (run_on garbage_block))))
    by (vm_compute; right; left; reflexivity).
  exact (conj H (written_bodies_are_base64 (run_on garbage_block) 1 _ H)).
Defined.

Lemma chainCerts_incl (meta : list Meta) (m : Meta) :
  In m (chainCerts meta) -> In m meta.
Proof.
  unfold chainCerts. intros H. apply in_map_iff in H as [e [<- He]].
  apply filter_In in He as [He _]. apply indexed_In_snd, He.
Qed.

Lemma metadata_pem (o : Artifact -> jsstring -> option jsstring)
    (ms : list jsstring) (m : Meta) :
  In m (metadata o (pemFiles_of ms)) -> exists b64, pem_text m = pem b64.
Proof.
  unfold metadata, pemFiles_of. intros H.
  apply in_map_iff in H as [p [<- Hp]].
  apply in_map_iff in Hp as [[i b64] [<- _]].
  exists b64. reflexivity.
Qed.

Lemma combined_newline_terminated (chain : list Meta) :
  chain <> [] ->
  combined chain ++ [LF] = concat (map (fun m => pem_text m ++ [LF]) chain).
Proof.
  unfold combined. induction chain as [|m [|m' chain] IH]; intros N; [congruence| |].
  - simpl. rewrite app_nil_r. reflexivity.
  - change (join [LF] (map pem_text (m :: m' :: chain)))
      with (pem_text m ++ [LF] ++ join [LF] (map pem_text (m' :: chain))).
    cbn [map concat]. cbn [map concat] in IH.
    rewrite <- IH by discriminate. rewrite <- !app_assoc. reflexivity.
Qed.

(** C4: For every run that reads certificates, the chain file holds the
    PEM texts of the chain certificates in chain order, joined by one
    newline character between two consecutive texts; each text already
    ends in exactly one newline.  With at most one chain certificate this
    is the plain concatenation, and with an empty chain the file is
    written empty and the run completes. *)
Theorem chain_file_content (env : Env) (raw : jsstring) :
  reads_certificates env raw ->
  status (main env) = Completed
  /\ read_back CertificateChainPem (effects (main env))
     = Some (Text (combined (chain_of env raw)))
  /\ (chain_of env raw <> [] ->
      combined (chain_of env raw) ++ [LF]
      = concat (map (fun m => pem_text m ++ [LF]) (chain_of env raw)))
  /\ (forall m, In m (chain_of env raw) -> one_trailing_newline (pem_text m))
  /\ ((length (chain_of env raw) <= 1)%nat ->
      combined (chain_of env raw) = plain_concatenation (chain_of env raw))
  /\ (chain_of env raw = [] -> combined (chain_of env raw) = []).
Proof.
  intros H. destruct (main_completes env raw H) as [lf [msg [_ E]]].
  rewrite E. cbn [status effects].
  split; [reflexivity|]. split; [|split; [|split; [|split]]].
  - rewrite read_back_app. reflexivity.
  - apply combined_newline_terminated.
  - intros m Hm. apply chainCerts_incl, metadata_pem in Hm as [b64 ->].
    apply pem_one_trailing_newline.
  - unfold combined, plain_concatenation.
    destruct (chain_of env raw) as [|m [|m' chain]]; simpl; intros L.
    + reflexivity.
    + rewrite app_nil_r. reflexivity.
    + lia.
  - intros ->. reflexivity.
Qed.

Lemma reads_three_blocks : reads_certificates (run_on three_blocks) three_blocks.
Proof.
  unfold reads_certificates. split; [vm_compute; lia|].
  split; [reflexivity | vm_compute; discriminate].
Defined.

Lemma chain_file_content_witness :
  status (main (run_on three_blocks)) = Completed
  /\ read_back CertificateChainPem (effects (main (run_on three_blocks)))
     = Some (Text (pem (lit "RUZH") ++ [LF] ++ pem (lit "SUpL"))).
Proof.
  destruct (chain_file_content (run_on three_blocks) three_blocks
              reads_three_blocks) as [C [R _]].
  split; [exact C|]. rewrite R. vm_compute. reflexivity.
Defined.

(** The claim C4 as the specification words it fails: with two chain
    certificates the file is not their plain concatenation, a newline
    stands between the two PEM texts. *)
Lemma chain_file_is_not_plain_concatenation :
  ~ chain_file_is plain_concatenation (run_on three_blocks).
Proof.
  intros H. specialize (H three_blocks reads_three_blocks).
  vm_compute in H. discriminate H.
Qed.

(* ================================================================= *)
(** ** The rounds allotted to [replace_runs] are enough *)

Lemma dot_run_split (n : nat) (s r rest : jsstring) :
  dot_run n s = (r, rest) -> s = r ++ rest.
Proof.
  revert s r rest. induction n as [|n IH]; intros s r rest H.
  - simpl in H. destruct s; injection H as <- <-; reflexivity.
  - destruct s as [|c s]; simpl in H; [injection H as <- <-; reflexivity|].
    destruct (isLineTerminator c); [injection H as <- <-; reflexivity|].
    destruct (dot_run n s) as [r' rest'] eqn:D.
    injection H as <- <-. rewrite (IH s r' rest' D). reflexivity.
Qed.

Lemma replace_runs_fuel (f1 f2 : nat) (s : jsstring) :
  (length s <= f1)%nat -> (length s <= f2)%nat ->
  replace_runs f1 s = replace_runs f2 s.
Proof.
  revert f2 s. induction f1 as [|f1 IH]; intros f2 s L1 L2.
  - destruct s; [|simpl in L1; lia]. destruct f2; reflexivity.
  - destruct f2 as [|f2].
    + destruct s; [reflexivity | simpl in L2; lia].
    + destruct s as [|c s]; [reflexivity|]. cbn [replace_runs].
      destruct (dot_run 64 (c :: s)) as [r rest] eqn:D.
      apply dot_run_split in D.
      destruct r as [|x r].
      * f_equal. apply IH; simpl in *; lia.
      * f_equal. f_equal. apply IH.
        -- apply (f_equal (@length char)) in D.
           rewrite length_app in D. simpl in *. lia.
        -- apply (f_equal (@length char)) in D.
           rewrite length_app in D. simpl in *. lia.
Qed.

(* ================================================================= *)
(** ** The scan reads back what the encoder writes *)

Lemma find_literal_here (p s r : jsstring) :
  strip_prefix p s = Some r -> find_literal p s = Some ([], r).
Proof.
  intros H. destruct s; simpl; rewrite H; reflexivity.
Qed.

Lemma find_literal_after_dash_free (p' x rest : jsstring) :
  dash_free x = true ->
  find_literal (45 :: p') (x ++ (45 :: p') ++ rest) = Some (x, rest).
Proof.
  induction x as [|c x IH]; intros D.
  - apply (find_literal_here (45 :: p') ((45 :: p') ++ rest) rest).
    apply strip_prefix_app.
  - simpl in D. apply andb_true_iff in D as [Dc Dx].
    change ((c :: x) ++ (45 :: p') ++ rest) with (c :: (x ++ (45 :: p') ++ rest)).
    cbn [find_literal strip_prefix].
    apply negb_true_iff in Dc. rewrite N.eqb_sym in Dc. rewrite Dc.
    rewrite (IH Dx). reflexivity.
Qed.

Lemma find_literal_dash_free (p' x : jsstring) :
  dash_free x = true -> find_literal (45 :: p') x = None.
Proof.
  induction x as [|c x IH]; intros D; [reflexivity|].
  simpl in D. apply andb_true_iff in D as [Dc Dx].
  cbn [find_literal strip_prefix].
  apply negb_true_iff in Dc. rewrite N.eqb_sym in Dc. rewrite Dc.
  rewrite (IH Dx). reflexivity.
Qed.

Lemma HEADER_dash : HEADER = 45 :: lit "----BEGIN CERTIFICATE-----".
Proof. reflexivity. Qed.

Lemma FOOTER_dash : FOOTER = 45 :: lit "----END CERTIFICATE-----".
Proof. reflexivity. Qed.

Lemma dash_free_app (a b : jsstring) :
  dash_free (a ++ b) = dash_free a && dash_free b.
Proof. apply forallb_app. Qed.

Lemma base64_dash_free (s : jsstring) :
  forallb isBase64 s = true -> dash_free s = true.
Proof.
  unfold dash_free. induction s as [|c s IH]; simpl; [reflexivity|].
  intros H. apply andb_true_iff in H as [Hc Hs]. rewrite (IH Hs), andb_true_r.
  unfold isBase64, in_range in Hc. bool_to_prop. lia.
Qed.

Lemma join_base64_lines_dash_free (lines : list jsstring) :
  (forall l, In l lines -> forallb isBase64 l = true) ->
  dash_free (join [LF] lines) = true.
Proof.
  induction lines as [|x [|y more] IH]; intros H; [reflexivity | |].
  - simpl. apply base64_dash_free, H. left. reflexivity.
  - change (join [LF] (x :: y :: more)) with (x ++ [LF] ++ join [LF] (y :: more)).
    rewrite !dash_free_app, IH by (intros l Hl; apply H; right; exact Hl).
    rewrite base64_dash_free by (apply H; left; reflexivity). reflexivity.
Qed.

Lemma wrap64_dash_free (b64 : jsstring) :
  dash_free (wrap64 (cleanedB64 b64)) = true.
Proof.
  destruct (wrap64_lines b64) as [lines [E [B _]]]. rewrite E.
  apply join_base64_lines_dash_free, B.
Qed.

Lemma trimEnd_no_whitespace (s : jsstring) :
  forallb (fun c => negb (isWhiteSpace c)) s = true -> trimEnd s = s.
Proof.
  induction s as [|c s IH]; simpl; [reflexivity|].
  intros H. apply andb_true_iff in H as [Hc Hs]. rewrite (IH Hs).
  apply negb_true_iff in Hc. rewrite Hc. destruct s; reflexivity.
Qed.

Lemma trim_base64 (s : jsstring) : forallb isBase64 s = true -> trim s = s.
Proof.
  intros B. unfold trim.
  assert (W : forallb (fun c => negb (isWhiteSpace c)) s = true).
  { clear -B. induction s as [|c s IH]; simpl; [reflexivity|].
    simpl in B. apply andb_true_iff in B as [Bc Bs].
    rewrite (isBase64_not_whitespace c Bc), (IH Bs). reflexivity. }
  assert (S : trimStart s = s).
  { destruct s as [|c s]; [reflexivity|]. simpl in *.
    apply andb_true_iff in W as [Wc _]. apply negb_true_iff in Wc.
    rewrite Wc. reflexivity. }
  rewrite S. apply trimEnd_no_whitespace, W.
Qed.

(** Without carriage returns, removing the line breaks is removing the
    line feeds. *)
Lemma remove_line_breaks_no_CR (s : jsstring) :
  forallb (fun c => negb (c =? CR)) s = true ->
  remove_line_breaks s = decode_body s.
Proof.
  unfold decode_body, is_line_break.
  induction s as [|c s IH]; intros H; [reflexivity|].
  simpl in H. apply andb_true_iff in H as [Hc Hs].
  apply negb_true_iff in Hc. cbn [remove_line_breaks filter].
  rewrite Hc, orb_false_r, (IH Hs).
  destruct (c =? LF); reflexivity.
Qed.

Lemma join_base64_lines_no_CR (lines : list jsstring) :
  (forall l, In l lines -> forallb isBase64 l = true) ->
  forallb (fun c => negb (c =? CR)) (join [LF] lines) = true.
Proof.
  assert (K : forall l : jsstring, forallb isBase64 l = true ->
            forallb (fun c => negb (c =? CR)) l = true).
  { induction l as [|c l IH]; simpl; [reflexivity|]. intros H.
    apply andb_true_iff in H as [Hc Hl]. rewrite (IH Hl), andb_true_r.
    unfold isBase64, in_range in Hc. unfold CR. bool_to_prop. lia. }
  induction lines as [|x [|y more] IH]; intros H; [reflexivity | |].
  - simpl. apply K, H. left. reflexivity.
  - change (join [LF] (x :: y :: more)) with (x ++ [LF] ++ join [LF] (y :: more)).
    rewrite !forallb_app. apply andb_true_iff. split.
    + apply K, H. left. reflexivity.
    + apply andb_true_iff. split; [reflexivity|].
      apply IH. intros l Hl. apply H. right. exact Hl.
Qed.

(** The group between the header and the footer of [pem b64] cleans up to
    the payload. *)
Lemma group_of_pem (b64 : jsstring) :
  trim (remove_line_breaks (LF :: wrap64 (cleanedB64 b64) ++ [LF]))
  = cleanedB64 b64.
Proof.
  destruct (wrap64_lines b64) as [lines [E [B C]]]. rewrite E.
  rewrite remove_line_breaks_no_CR.
  - assert (D : decode_body (LF :: join [LF] lines ++ [LF])
                = decode_body (join [LF] lines)).
    { unfold decode_body.
      change (LF :: join [LF] lines ++ [LF])
        with ([LF] ++ join [LF] lines ++ [LF]).
      rewrite !filter_app.
      assert (F : filter (fun c => negb (is_line_break c)) [LF] = [])
        by reflexivity.
      rewrite F, app_nil_r. reflexivity. }
    rewrite D, (decode_join lines B), C.
    apply trim_base64, keep_base64_all.
  - cbn [forallb]. apply andb_true_iff. split; [reflexivity|].
    rewrite forallb_app. apply andb_true_iff.
    split; [apply join_base64_lines_no_CR, B | reflexivity].
Qed.

(** One round of the scan over a text that starts, after hyphen-free
    text, with a PEM text of the encoder. *)
Lemma pem_groups_step (fuel : nat) (pre b64 rest : jsstring) :
  dash_free pre = true ->
  pem_groups (S fuel) (pre ++ pem b64 ++ rest)
  = (LF :: wrap64 (cleanedB64 b64) ++ [LF]) :: pem_groups fuel (LF :: rest).
Proof.
  intros D. cbn [pem_groups]. unfold pem.
  replace (pre ++ (HEADER ++ [LF] ++ wrap64 (cleanedB64 b64) ++ [LF] ++ FOOTER ++ [LF]) ++ rest)
    with (pre ++ HEADER
          ++ ((LF :: wrap64 (cleanedB64 b64) ++ [LF]) ++ FOOTER ++ (LF :: rest)))
    by (cbn [app]; rewrite <- !app_assoc; cbn [app]; rewrite <- !app_assoc; reflexivity).
  rewrite HEADER_dash. rewrite (find_literal_after_dash_free _ pre _ D).
  rewrite FOOTER_dash. rewrite find_literal_after_dash_free; [reflexivity|].
  cbn [dash_free forallb]. fold (dash_free (wrap64 (cleanedB64 b64) ++ [LF])).
  rewrite dash_free_app, wrap64_dash_free. reflexivity.
Qed.

Lemma pem_length (b64 : jsstring) : (2 <= length (pem b64))%nat.
Proof.
  unfold pem. rewrite !length_app. change (length HEADER) with 27%nat. lia.
Qed.

Lemma pem_groups_blocks (tail : jsstring) (blocks : list (jsstring * jsstring)) :
  dash_free tail = true ->
  (forall pb, In pb blocks -> dash_free (fst pb) = true) ->
  forall (pre0 : jsstring) (fuel : nat),
    dash_free pre0 = true ->
    (length (pre0 ++ blocks_text blocks tail) <= fuel)%nat ->
    map (fun g => trim (remove_line_breaks g))
      (pem_groups fuel (pre0 ++ blocks_text blocks tail))
    = map (fun pb => cleanedB64 (snd pb)) blocks.
Proof.
  intros Dt. induction blocks as [|[pre b] more IH]; intros Db pre0 fuel D0 L.
  - unfold blocks_text. cbn [flat_map app map].
    destruct fuel; [reflexivity|]. cbn [pem_groups].
    rewrite HEADER_dash, find_literal_dash_free; [reflexivity|].
    rewrite dash_free_app, D0, Dt. reflexivity.
  - assert (E : pre0 ++ blocks_text ((pre, b) :: more) tail
                = (pre0 ++ pre) ++ pem b ++ blocks_text more tail).
    { unfold blocks_text. cbn [flat_map fst snd]. rewrite <- !app_assoc. reflexivity. }
    rewrite E in *.
    pose proof (pem_length b) as Lp.
    destruct fuel as [|fuel]; [rewrite !length_app in L; lia|].
    rewrite pem_groups_step.
    + cbn [map snd]. rewrite group_of_pem. f_equal.
      apply (IH (fun pb H => Db pb (or_intror H)) [LF] fuel eq_refl).
      rewrite !length_app in L. cbn [length app]. lia.
    + rewrite dash_free_app, D0. apply (Db (pre, b)). left. reflexivity.
Qed.

Lemma pem_scan_of_blocks (blocks : list (jsstring * jsstring)) (tail : jsstring) :
  dash_free tail = true ->
  (forall pb, In pb blocks -> dash_free (fst pb) = true) ->
  pem_scan (blocks_text blocks tail)
  = map (fun pb => cleanedB64 (snd pb)) blocks.
Proof.
  intros Dt Db. unfold pem_scan.
  apply (pem_groups_blocks tail blocks Dt Db [] _ eq_refl). apply le_n.
Qed.

(** X1: A text made of PEM texts written by the encoder, each preceded by
    any text without hyphens and followed by a tail without hyphens, is
    read back by the well-formed PEM scan as the cleaned payloads, one per
    block and in order. *)
Theorem pem_scan_blocks (blocks : list (jsstring * jsstring)) (tail : jsstring) :
  dash_free tail = true ->
  (forall pb, In pb blocks -> dash_free (fst pb) = true) ->
  pem_scan (blocks_text blocks tail)
  = map (fun pb => cleanedB64 (snd pb)) blocks.
Proof.
  intros Dt Db. unfold pem_scan.
  apply (pem_groups_blocks tail blocks Dt Db [] _ eq_refl). apply le_n.
Qed.

Lemma pem_scan_blocks_witness :
  pem_scan (blocks_text commented_blocks [LF]) = [lit "QUJD"; lit "RUZH"].
Proof.
  rewrite (pem_scan_blocks commented_blocks [LF]).
  - vm_compute. reflexivity.
  - vm_compute. reflexivity.
  - intros pb Hpb. vm_compute in Hpb.
    destruct Hpb as [<-|[<-|[]]]; vm_compute; reflexivity.
Defined.

(* ================================================================= *)
(** ** What the metadata keeps of the payloads *)

Lemma cleanedB64_idempotent (b64 : jsstring) :
  cleanedB64 (cleanedB64 b64) = cleanedB64 b64.
Proof. unfold cleanedB64. apply keep_base64_id, keep_base64_all. Qed.

Lemma pem_of_cleaned (b64 : jsstring) : pem (cleanedB64 b64) = pem b64.
Proof. unfold pem. rewrite cleanedB64_idempotent. reflexivity. Qed.

Lemma metadata_map_pem (o : Artifact -> jsstring -> option jsstring)
    (ms : list jsstring) :
  map pem_text (metadata o (pemFiles_of ms)) = map pem ms.
Proof.
  unfold metadata, pemFiles_of. rewrite !map_map.
  rewrite <- (indexed_snd ms) at 2. rewrite map_map.
  apply map_ext. intros [i b]. reflexivity.
Qed.

Lemma metadata_map_raw (o : Artifact -> jsstring -> option jsstring)
    (ms : list jsstring) :
  map rawB64 (metadata o (pemFiles_of ms)) = map cleanedB64 ms.
Proof.
  unfold metadata, pemFiles_of. rewrite !map_map.
  rewrite <- (indexed_snd ms) at 2. rewrite map_map.
  apply map_ext. intros [i b]. reflexivity.
Qed.

Lemma metadata_pem_raw (o : Artifact -> jsstring -> option jsstring)
    (ms : list jsstring) (m : Meta) :
  In m (metadata o (pemFiles_of ms)) ->
  pem_text m = pem (rawB64 m) /\ cleanedB64 (rawB64 m) = rawB64 m.
Proof.
  unfold metadata, pemFiles_of. intros H.
  apply in_map_iff in H as [p [<- Hp]].
  apply in_map_iff in Hp as [[i b64] [<- _]].
  cbn [meta_of pemFile_of pem_text rawB64 pf_pem pf_rawB64].
  split; [symmetry; apply pem_of_cleaned | apply cleanedB64_idempotent].
Qed.

Lemma leafIndex_lt (meta : list Meta) :
  meta <> [] -> (leafIndex meta < length meta)%nat.
Proof.
  intros N. unfold leafIndex. pose proof (candidate_spec meta) as C.
  destruct (candidate meta) as [[i m]|].
  - apply nth_error_Some. destruct C as [C _]. congruence.
  - destruct meta; [congruence | simpl; lia].
Qed.

Lemma join_cons (sep x : jsstring) (r : list jsstring) :
  join sep (x :: r) = x ++ flat_map (fun y => sep ++ y) r.
Proof.
  revert x. induction r as [|y r IH]; intros x.
  - simpl. rewrite app_nil_r. reflexivity.
  - change (join sep (x :: y :: r)) with (x ++ sep ++ join sep (y :: r)).
    rewrite IH. cbn [flat_map]. rewrite <- !app_assoc. reflexivity.
Qed.

(** The joined chain as a text of blocks: nothing before the first PEM
    text, a newline before each of the others. *)
Lemma combined_blocks (m : Meta) (r : list Meta) :
  (forall x, In x (m :: r) -> pem_text x = pem (rawB64 x)) ->
  combined (m :: r)
  = blocks_text (([], rawB64 m) :: map (fun x => ([LF], rawB64 x)) r) [].
Proof.
  intros H. unfold combined, blocks_text. cbn [map]. rewrite join_cons.
  cbn [flat_map fst snd app]. rewrite app_nil_r.
  rewrite (H m (or_introl eq_refl)). f_equal.
  assert (K : forall x, In x r -> pem_text x = pem (rawB64 x))
    by (intros x Hx; apply H; right; exact Hx).
  clear H. induction r as [|y r IH]; [reflexivity|].
  cbn [map flat_map fst snd]. rewrite (K y (or_introl eq_refl)).
  rewrite IH by (intros x Hx; apply K; right; exact Hx). reflexivity.
Qed.

Lemma pem_scan_combined (chain : list Meta) :
  (forall x, In x chain ->
     pem_text x = pem (rawB64 x) /\ cleanedB64 (rawB64 x) = rawB64 x) ->
  pem_scan (combined chain) = map rawB64 chain.
Proof.
  intros H. destruct chain as [|m r]; [reflexivity|].
  rewrite combined_blocks by (intros x Hx; apply H, Hx).
  rewrite pem_scan_of_blocks.
  - cbn [map snd]. rewrite (proj2 (H m (or_introl eq_refl))). f_equal.
    rewrite map_map. cbn [snd]. apply map_ext_in.
    intros x Hx. apply H. right. exact Hx.
  - reflexivity.
  - intros pb [<-|Hpb]; [reflexivity|].
    apply in_map_iff in Hpb as [x [<- _]]. reflexivity.
Qed.

(* ================================================================= *)
(** ** Files read back *)

Lemma read_back_certs_before (k j : nat) (l : list jsstring) :
  (j <= k)%nat ->
  read_back (CertFile j)
    (write_certs (map pemFile_of (combine (seq k (length l)) l))) = None.
Proof.
  revert k. induction l as [|x l IH]; intros k Hj; [reflexivity|].
  cbn [length seq combine map write_certs flat_map pemFile_of pf_path pf_pem app].
  cbn [read_back]. fold (write_certs (map pemFile_of (combine (seq (S k) (length l)) l))).
  rewrite (IH (S k)) by lia. cbn [artifact_eqb].
  destruct (Nat.eqb_spec j (k + 1)); [lia | reflexivity].
Qed.

Lemma read_back_certs_from (k i : nat) (l : list jsstring) (b : jsstring) :
  nth_error l i = Some b ->
  read_back (CertFile (k + i + 1))
    (write_certs (map pemFile_of (combine (seq k (length l)) l)))
  = Some (Text (pem b)).
Proof.
  revert k i. induction l as [|x l IH]; intros k i H; [destruct i; discriminate|].
  cbn [length seq combine map write_certs flat_map pemFile_of pf_path pf_pem app].
  cbn [read_back]. fold (write_certs (map pemFile_of (combine (seq (S k) (length l)) l))).
  destruct i as [|i]; simpl in H.
  - injection H as ->. rewrite read_back_certs_before by lia.
    cbn [artifact_eqb]. rewrite Nat.add_0_r, Nat.eqb_refl. reflexivity.
  - replace (k + S i + 1)%nat with (S k + i + 1)%nat by lia.
    rewrite (IH (S k) i H). reflexivity.
Qed.

(** [cert-(i+1).pem] holds the PEM text of the [i]-th payload. *)
Lemma read_back_cert (ms : list jsstring) (i : nat) (b : jsstring) :
  nth_error ms i = Some b ->
  read_back (CertFile (i + 1)) (write_certs (pemFiles_of ms))
  = Some (Text (pem b)).
Proof. apply (read_back_certs_from 0 i ms b). Qed.

Lemma read_back_cert_in_run (env : Env) (raw : jsstring) (lf : Meta)
    (msg : Message) (i : nat) (b : jsstring) :
  nth_error (matches (extract raw)) i = Some b ->
  read_back (CertFile (i + 1))
    (setup_effects env raw ++ bundle_effects lf (meta_of_run env raw) msg)
  = Some (Text (pem b)).
Proof.
  intros H. rewrite read_back_app.
  assert (B : read_back (CertFile (i + 1))
                (bundle_effects lf (meta_of_run env raw) msg) = None)
    by reflexivity.
  rewrite B. unfold setup_effects. rewrite !read_back_app.
  rewrite (read_back_cert _ i b H). reflexivity.
Qed.

Lemma read_back_leaf_in_run (before : list Effect) (lf : Meta)
    (meta : list Meta) (msg : Message) :
  read_back CertificatePem (before ++ bundle_effects lf meta msg)
  = Some (Text (pem_text lf)).
Proof. rewrite read_back_app. reflexivity. Qed.

Lemma read_back_chain_in_run (before : list Effect) (lf : Meta)
    (meta : list Meta) (msg : Message) :
  read_back CertificateChainPem (before ++ bundle_effects lf meta msg)
  = Some (Text (combined (chainCerts meta))).
Proof. rewrite read_back_app. reflexivity. Qed.

Lemma nth_error_indexed_from {A : Type} (k i : nat) (l : list A) :
  nth_error (combine (seq k (length l)) l) i
  = option_map (fun x => ((k + i)%nat, x)) (nth_error l i).
Proof.
  revert k i. induction l as [|a l IH]; intros k [|i]; try reflexivity.
  - cbn. rewrite Nat.add_0_r. reflexivity.
  - cbn [length seq combine nth_error]. rewrite IH.
    replace (S k + i)%nat with (k + S i)%nat by lia. reflexivity.
Qed.

(** The [i]-th record of the metadata carries the PEM text of the [i]-th
    payload. *)
Lemma metadata_nth (o : Artifact -> jsstring -> option jsstring)
    (ms : list jsstring) (i : nat) (m : Meta) :
  nth_error (metadata o (pemFiles_of ms)) i = Some m ->
  exists b, nth_error ms i = Some b /\ pem_text m = pem b
            /\ rawB64 m = cleanedB64 b /\ path m = CertFile (i + 1).
Proof.
  unfold metadata, pemFiles_of, indexed. rewrite !nth_error_map.
  rewrite nth_error_indexed_from.
  destruct (nth_error ms i) as [b|]; [|discriminate].
  cbn. intros H. injection H as <-. exists b. auto.
Qed.

(* ================================================================= *)
(** ** The bundle of a run *)

(** X2: For every run that reads certificates, the well-formed PEM scan
    applied to the content of the chain file gives back the cleaned
    payloads of the chain certificates, in chain order: the newline the
    script puts between two PEM texts does not disturb a later run. *)
Theorem chain_file_reextracts (env : Env) (raw : jsstring) :
  reads_certificates env raw ->
  exists text,
    read_back CertificateChainPem (effects (main env)) = Some (Text text)
    /\ pem_scan text = map rawB64 (chain_of env raw).
Proof.
  intros H. destruct (main_completes env raw H) as [lf [msg [_ E]]].
  exists (combined (chain_of env raw)). rewrite E. cbn [effects].
  split; [apply read_back_chain_in_run|].
  apply pem_scan_combined. intros x Hx.
  apply chainCerts_incl in Hx. eapply metadata_pem_raw. exact Hx.
Qed.

Lemma chain_file_reextracts_witness :
  exists text,
    read_back CertificateChainPem (effects (main (run_on three_blocks)))
    = Some (Text text)
    /\ pem_scan text = map rawB64 (chain_of (run_on three_blocks) three_blocks).
Proof.
  exact (chain_file_reextracts (run_on three_blocks) three_blocks
           reads_three_blocks).
Defined.

(** X3: For every run that reads certificates, [certificate.pem] holds
    exactly what [cert-(k+1).pem] holds, where [k] is the index the
    classifier chose, and that file is one of those written. *)
Theorem leaf_file_is_a_copy (env : Env) (raw : jsstring) :
  reads_certificates env raw ->
  (leafIndex (meta_of_run env raw) < length (matches (extract raw)))%nat
  /\ exists text,
       read_back CertificatePem (effects (main env)) = Some (Text text)
       /\ read_back (CertFile (leafIndex (meta_of_run env raw) + 1))
            (effects (main env)) = Some (Text text).
Proof.
  intros H. destruct (main_completes env raw H) as [lf [msg [L E]]].
  unfold leaf in L. fold (meta_of_run env raw) in L, E.
  destruct (metadata_nth _ _ _ _ L) as [b [Hb [Hp _]]].
  split; [apply nth_error_Some; congruence|].
  exists (pem_text lf). rewrite E. cbn [effects].
  split; [apply read_back_leaf_in_run|].
  rewrite Hp. apply read_back_cert_in_run, Hb.
Qed.

Lemma leaf_file_is_a_copy_witness :
  (leafIndex (meta_of_run (run_on three_blocks) three_blocks)
   < length (matches (extract three_blocks)))%nat
  /\ exists text,
       read_back CertificatePem (effects (main (run_on three_blocks)))
       = Some (Text text)
       /\ read_back
            (CertFile (leafIndex (meta_of_run (run_on three_blocks) three_blocks) + 1))
            (effects (main (run_on three_blocks))) = Some (Text text).
Proof.
  exact (leaf_file_is_a_copy (run_on three_blocks) three_blocks
           reads_three_blocks).
Defined.

(** X4: Whatever the run, a write to [upload-ready.json] serialises an
    object whose [Certificate] and [CertificateChain] fields are the
    contents of [certificate.pem] and [certificate_chain.pem] at that
    time. *)
Theorem upload_json_mirrors_files (env : Env) (c : Content) :
  In (WriteFile UploadReadyJson c) (effects (main env)) ->
  exists certificate chain,
    c = UploadJson certificate chain
    /\ read_back CertificatePem (effects (main env)) = Some (Text certificate)
    /\ read_back CertificateChainPem (effects (main env)) = Some (Text chain).
Proof.
  intros H.
  destruct (main_cases env)
    as [[_ E]|[[_ [_ E]]|[[raw [_ [_ [_ E]]]]|[raw [lf [msg [_ [_ E]]]]]]]];
    rewrite E in *; cbn [effects] in *.
  - destruct H as [H|[]]. discriminate H.
  - destruct H.
  - apply in_app_iff in H as [H|[H|[]]]; [|discriminate H].
    destruct (warned (extract raw)); [|destruct H].
    destruct H as [H|[]]. discriminate H.
  - exists (pem_text lf), (combined (chainCerts (meta_of_run env raw))).
    split; [|split; [apply read_back_leaf_in_run | apply read_back_chain_in_run]].
    apply in_app_iff in H as [H|H].
    + unfold setup_effects in H.
      apply in_app_iff in H as [H|H].
      { destruct (warned (extract raw)); [|destruct H].
        destruct H as [H|[]]. discriminate H. }
      apply in_app_iff in H as [H|H].
      { destruct (outDirExists env); [destruct H|].
        destruct H as [H|[]]. discriminate H. }
      apply write_certs_In in H as [k [b64 [K _]]]. discriminate K.
    + unfold bundle_effects in H.
      repeat (destruct H as [H|H]; [try discriminate H|]); [|destruct H].
      injection H as <-. reflexivity.
Qed.

Lemma upload_json_mirrors_files_witness :
  exists certificate chain,
    UploadJson (pem (lit "QUJD")) (pem (lit "RUZH"))
    = UploadJson certificate chain
    /\ read_back CertificatePem (effects (main (run_on two_blocks)))
       = Some (Text certificate)
    /\ read_back CertificateChainPem (effects (main (run_on two_blocks)))
       = Some (Text chain).
Proof.
  apply (upload_json_mirrors_files (run_on two_blocks)).
  vm_compute. do 9 right. left. reflexivity.
Defined.

Lemma fs_ops_app (a b : list Effect) : fs_ops (a ++ b) = fs_ops a ++ fs_ops b.
Proof. unfold fs_ops. apply flat_map_app. Qed.

Lemma fs_ops_write_certs_from (k : nat) (l : list jsstring) :
  fs_ops (write_certs (map pemFile_of (combine (seq k (length l)) l)))
  = map (fun i => OpWrite (CertFile i)) (seq (k + 1) (length l)).
Proof.
  revert k. induction l as [|x l IH]; intros k; [reflexivity|].
  cbn [length seq combine map write_certs flat_map pemFile_of pf_path app].
  fold (write_certs (map pemFile_of (combine (seq (S k) (length l)) l))).
  unfold fs_ops at 1. cbn [flat_map app]. fold (fs_ops).
  change (flat_map _ (write_certs ?w)) with (fs_ops (write_certs w)).
  rewrite (IH (S k)). reflexivity.
Qed.

(** X5: For every run that reads certificates, what happens to the file
    system is, in this order: the output directory is created if and only
    if it did not exist; [cert-1.pem] to [cert-N.pem] are written, in
    extraction order; then [certificate.pem], [certificate_chain.pem] and
    [upload-ready.json].  Each file is written once and nothing else is
    touched. *)
Theorem file_system_trace (env : Env) (raw : jsstring) :
  reads_certificates env raw ->
  fs_ops (effects (main env))
  = (if outDirExists env then [] else [OpMkdir])
    ++ map (fun i => OpWrite (CertFile i))
         (seq 1 (length (matches (extract raw))))
    ++ [OpWrite CertificatePem; OpWrite CertificateChainPem;
        OpWrite UploadReadyJson].
Proof.
  intros H. destruct (main_completes env raw H) as [lf [msg [_ E]]].
  rewrite E. cbn [effects]. unfold setup_effects.
  rewrite !fs_ops_app. unfold pemFiles_of, indexed.
  rewrite (fs_ops_write_certs_from 0).
  destruct (warned (extract raw)); destruct (outDirExists env); reflexivity.
Qed.

Lemma file_system_trace_witness :
  fs_ops (effects (main (run_on three_blocks)))
  = [OpMkdir; OpWrite (CertFile 1); OpWrite (CertFile 2); OpWrite (CertFile 3);
     OpWrite CertificatePem; OpWrite CertificateChainPem;
     OpWrite UploadReadyJson].
Proof.
  rewrite (file_system_trace (run_on three_blocks) three_blocks
             reads_three_blocks).
  vm_compute. reflexivity.
Defined.

Lemma no_candidate_first (meta : list Meta) :
  (forall m, In m meta -> is_candidate meta m = false) -> leafIndex meta = 0%nat.
Proof.
  intros H. unfold leafIndex. pose proof (candidate_spec meta) as C.
  destruct (candidate meta) as [[i m]|]; [|reflexivity].
  destruct C as [Hn [Hc _]]. apply nth_error_In in Hn.
  rewrite (H m Hn) in Hc. discriminate Hc.
Qed.

Lemma silent_reader_no_issuer (env : Env) (ms : list jsstring) (m : Meta) :
  reader_silent env ->
  In m (metadata (openssl env) (pemFiles_of ms)) ->
  subject m = None /\ issuer m = None.
Proof.
  unfold metadata. intros S H. apply in_map_iff in H as [p [<- _]].
  unfold meta_of. cbn [subject issuer].
  pose proof (S (pf_path p) (pf_pem p)) as T.
  destruct (opensslInspect (openssl env (pf_path p) (pf_pem p))) as [i|];
    [rewrite T|]; split; reflexivity.
Qed.

Lemma chainCerts_first_leaf (meta : list Meta) :
  leafIndex meta = 0%nat -> chainCerts meta = tl meta.
Proof.
  intros H. rewrite chainCerts_without_leaf, H. unfold without_index.
  destruct meta; reflexivity.
Qed.

Lemma map_tail {A B : Type} (f : A -> B) (l : list A) :
  map f (tl l) = tl (map f l).
Proof. destruct l; reflexivity. Qed.

(** X6: When the external reader gives nothing for any certificate (it is
    not installed, or prints nothing), a run that reads certificates still
    completes; the first extracted certificate is the leaf and the chain
    file holds all the others in extraction order. *)
Theorem silent_reader_first_is_leaf (env : Env) (raw : jsstring) :
  reads_certificates env raw ->
  reader_silent env ->
  status (main env) = Completed
  /\ read_back CertificatePem (effects (main env))
     = Some (Text (pem (hd [] (matches (extract raw)))))
  /\ read_back CertificateChainPem (effects (main env))
     = Some (Text (join [LF] (map pem (tl (matches (extract raw)))))).
Proof.
  intros H S. destruct (main_completes env raw H) as [lf [msg [L E]]].
  fold (meta_of_run env raw) in L, E.
  assert (Z : leafIndex (meta_of_run env raw) = 0%nat).
  { apply no_candidate_first. intros m Hm.
    destruct (silent_reader_no_issuer env _ m S Hm) as [_ I].
    unfold is_candidate. rewrite I. reflexivity. }
  rewrite E. cbn [status effects]. split; [reflexivity|].
  rewrite read_back_leaf_in_run, read_back_chain_in_run.
  unfold leaf in L. rewrite Z in L.
  destruct (metadata_nth _ _ _ _ L) as [b [Hb [Hp _]]].
  split.
  - rewrite Hp. destruct (matches (extract raw)); [discriminate Hb|].
    injection Hb as ->. reflexivity.
  - rewrite (chainCerts_first_leaf _ Z). unfold combined.
    rewrite !map_tail. unfold meta_of_run. rewrite metadata_map_pem.
    reflexivity.
Qed.

Lemma silent_reader_first_is_leaf_witness :
  status (main (run_on three_blocks)) = Completed
  /\ read_back CertificatePem (effects (main (run_on three_blocks)))
     = Some (Text (pem (hd [] (matches (extract three_blocks)))))
  /\ read_back CertificateChainPem (effects (main (run_on three_blocks)))
     = Some (Text (join [LF] (map pem (tl (matches (extract three_blocks)))))).
Proof.
  apply (silent_reader_first_is_leaf (run_on three_blocks) three_blocks
           reads_three_blocks).
  intros a text. reflexivity.
Defined.

(* ================================================================= *)
(** ** More on the classifier *)

Lemma firstn_app_exact {A : Type} (l1 l2 : list A) :
  firstn (length l1) (l1 ++ l2) = l1.
Proof.
  rewrite firstn_app, Nat.sub_diag, firstn_all. simpl. apply app_nil_r.
Qed.

Lemma skipn_app_exact {A : Type} (l1 l2 : list A) :
  skipn (length l1) (l1 ++ l2) = l2.
Proof.
  rewrite skipn_app, Nat.sub_diag, skipn_all. reflexivity.
Qed.

Lemma firstn_skipn_middle {A : Type} (l1 : list A) (x : A) (l2 : list A) :
  firstn (length l1) (l1 ++ x :: l2) ++ skipn (S (length l1)) (l1 ++ x :: l2)
  = l1 ++ l2.
Proof.
  rewrite firstn_app_exact. f_equal.
  replace (l1 ++ x :: l2) with ((l1 ++ [x]) ++ l2)
    by (rewrite <- app_assoc; reflexivity).
  replace (S (length l1)) with (length (l1 ++ [x]))
    by (rewrite length_app; simpl; lia).
  apply skipn_app_exact.
Qed.

(** X7: For every non-empty sequence of records the leaf and the chain
    share out the certificates: putting the leaf back into the chain at
    the position the classifier chose gives the sequence again, so the
    chain has exactly one certificate fewer and none is lost, repeated or
    reordered. *)
Theorem leaf_and_chain_partition (meta : list Meta) :
  meta <> [] ->
  exists lf,
    leaf meta = Some lf
    /\ meta = firstn (leafIndex meta) (chainCerts meta)
              ++ lf :: skipn (leafIndex meta) (chainCerts meta)
    /\ S (length (chainCerts meta)) = length meta.
Proof.
  intros N. destruct (leaf_defined meta N) as [lf L]. exists lf.
  split; [exact L|]. unfold leaf in L.
  destruct (nth_error_split _ _ L) as [l1 [l2 [E Len]]].
  rewrite chainCerts_without_leaf. unfold without_index.
  rewrite <- Len. clear Len L N. subst meta.
  rewrite (firstn_skipn_middle l1 lf l2).
  rewrite (firstn_app_exact l1 l2), (skipn_app_exact l1 l2).
  split; [reflexivity|]. rewrite !length_app. simpl. lia.
Qed.

Lemma leaf_and_chain_partition_witness :
  exists lf,
    leaf meta_ca_first = Some lf
    /\ meta_ca_first
       = firstn (leafIndex meta_ca_first) (chainCerts meta_ca_first)
         ++ lf :: skipn (leafIndex meta_ca_first) (chainCerts meta_ca_first)
    /\ S (length (chainCerts meta_ca_first)) = length meta_ca_first.
Proof.
  apply (leaf_and_chain_partition meta_ca_first). vm_compute. discriminate.
Defined.

(** X8: In a sequence where each certificate names as issuer the subject
    of the next one, and whose last certificate has a non-empty issuer
    that is the subject of none, the classifier designates the last
    certificate as leaf: for a bundle in the usual order (end-entity
    first, its CA after it, the root left out) [certificate.pem] receives
    the top-most CA and the end-entity certificate goes to the chain. *)
Theorem linked_chain_selects_last (meta : list Meta) (top : Meta) :
  linked meta ->
  nth_error meta (length meta - 1) = Some top ->
  truthy (issuer top) = true ->
  (forall m, In m meta -> subject m <> issuer top) ->
  leafIndex meta = (length meta - 1)%nat.
Proof.
  intros Lk Htop Ttop Utop. unfold leafIndex.
  pose proof (candidate_spec meta) as C.
  destruct (candidate meta) as [[i m]|].
  - destruct C as [Hn [Hc _]].
    assert (Hi : (i < length meta)%nat) by (apply nth_error_Some; congruence).
    destruct (Nat.eq_dec i (length meta - 1)) as [->|Ne]; [reflexivity|].
    exfalso.
    destruct (nth_error meta (S i)) as [m'|] eqn:Hn'.
    + destruct (Lk i m m' Hn Hn') as [_ Ei].
      apply is_candidate_spec in Hc as [s [Es [_ U]]].
      apply (U m' (nth_error_In _ _ Hn')). congruence.
    + apply nth_error_None in Hn'. lia.
  - exfalso.
    assert (Hc : is_candidate meta top = true).
    { apply is_candidate_spec. apply truthy_Some in Ttop as [s [Es Ns]].
      exists s. split; [exact Es|]. split; [exact Ns|].
      intros m' Hm' E. apply (Utop m' Hm'). congruence. }
    rewrite (C top (nth_error_In _ _ Htop)) in Hc. discriminate Hc.
Qed.

Lemma linked_chain_selects_last_witness :
  linked meta_leaf_first /\ leafIndex meta_leaf_first = 1%nat.
Proof.
  assert (L : linked meta_leaf_first).
  { intros [|[|i]] m m' H H'; vm_compute in H, H'; try discriminate H'.
    injection H as <-. injection H' as <-. split; vm_compute; reflexivity. }
  split; [exact L|].
  apply (linked_chain_selects_last meta_leaf_first
           (nth 1 meta_leaf_first (nth 0 meta_leaf_first
              {| path := CertificatePem; subject := None; issuer := None;
                 notBefore := None; notAfter := None;
                 pem_text := []; rawB64 := [] |}))).
  - exact L.
  - vm_compute. reflexivity.
  - vm_compute. reflexivity.
  - intros m Hm E. vm_compute in Hm.
    destruct Hm as [<-|[<-|[]]]; vm_compute in E; discriminate E.
Defined.

(* ================================================================= *)
(** ** A run on a file the script wrote *)

Lemma pem_scan_pem (b64 : jsstring) : pem_scan (pem b64) = [cleanedB64 b64].
Proof.
  pose proof (pem_scan_of_blocks [([], b64)] [] eq_refl) as H.
  unfold blocks_text in H. cbn [flat_map fst snd app] in H.
  rewrite !app_nil_r in H. apply H.
  intros pb [<-|[]]. reflexivity.
Qed.

Lemma extract_pem (b64 : jsstring) :
  extract (pem b64)
  = {| matches := [cleanedB64 b64]; applied := [PemScan]; warned := false |}.
Proof.
  unfold extract, extract3, extract2, extract1. rewrite pem_scan_pem. reflexivity.
Qed.

Lemma metadata_length (o : Artifact -> jsstring -> option jsstring)
    (ms : list jsstring) :
  length (metadata o (pemFiles_of ms)) = length ms.
Proof.
  unfold metadata, pemFiles_of. rewrite !length_map. apply indexed_length.
Qed.

(** X9: Feeding the script a PEM file it wrote itself reproduces it: for
    every payload [b64], a run whose input file holds [pem b64] completes,
    finds the one cleaned payload, writes [cert-1.pem] and
    [certificate.pem] with exactly [pem b64], and writes an empty chain
    file, whatever the external reader says. *)
Theorem rerun_on_own_output (env : Env) (b64 : jsstring) :
  reads env (pem b64) ->
  matches (extract (pem b64)) = [cleanedB64 b64]
  /\ status (main env) = Completed
  /\ read_back (CertFile 1) (effects (main env)) = Some (Text (pem b64))
  /\ read_back CertificatePem (effects (main env)) = Some (Text (pem b64))
  /\ read_back CertificateChainPem (effects (main env)) = Some (Text []).
Proof.
  intros [A R].
  assert (M : matches (extract (pem b64)) = [cleanedB64 b64])
    by (rewrite extract_pem; reflexivity).
  split; [exact M|].
  assert (H : reads_certificates env (pem b64)).
  { unfold reads_certificates. rewrite M. repeat split; auto. discriminate. }
  destruct (main_completes env _ H) as [lf [msg [L E]]].
  fold (meta_of_run env (pem b64)) in L, E.
  assert (Len : length (meta_of_run env (pem b64)) = 1%nat).
  { unfold meta_of_run. rewrite metadata_length, M. reflexivity. }
  assert (Z : leafIndex (meta_of_run env (pem b64)) = 0%nat).
  { assert (meta_of_run env (pem b64) <> []) as N
        by (intros K; rewrite K in Len; discriminate Len).
    pose proof (leafIndex_lt _ N). lia. }
  unfold leaf in L. rewrite Z in L.
  destruct (metadata_nth _ _ _ _ L) as [b [Hb [Hp _]]].
  rewrite M in Hb. injection Hb as <-. rewrite pem_of_cleaned in Hp.
  rewrite E. cbn [status effects]. split; [reflexivity|].
  split; [|split].
  - pose proof (read_back_cert_in_run env (pem b64) lf msg 0 (cleanedB64 b64)) as K.
    rewrite M in K. specialize (K eq_refl). rewrite pem_of_cleaned in K. exact K.
  - rewrite read_back_leaf_in_run, Hp. reflexivity.
  - rewrite read_back_chain_in_run, (chainCerts_first_leaf _ Z).
    destruct (meta_of_run env (pem b64)) as [|m [|m' r]]; try discriminate Len.
    reflexivity.
Qed.

Lemma rerun_on_own_output_witness :
  matches (extract (pem (lit "QU JD"))) = [cleanedB64 (lit "QU JD")]
  /\ status (main (run_on (pem (lit "QU JD")))) = Completed
  /\ read_back (CertFile 1) (effects (main (run_on (pem (lit "QU JD")))))
     = Some (Text (pem (lit "QU JD")))
  /\ read_back CertificatePem (effects (main (run_on (pem (lit "QU JD")))))
     = Some (Text (pem (lit "QU JD")))
  /\ read_back CertificateChainPem (effects (main (run_on (pem (lit "QU JD")))))
     = Some (Text []).
Proof.
  apply (rerun_on_own_output (run_on (pem (lit "QU JD"))) (lit "QU JD")).
  split; [vm_compute; lia | reflexivity].
Defined.

(* ================================================================= *)
(** ** When the well-formed PEM scan finds something *)

Lemma find_literal_complete (p a b : jsstring) :
  exists a' b',
    find_literal p (a ++ p ++ b) = Some (a', b') /\ (length a' <= length a)%nat.
Proof.
  induction a as [|c a IH].
  - exists [], b. split; [|apply le_n].
    apply (find_literal_here p (p ++ b) b), strip_prefix_app.
  - change ((c :: a) ++ p ++ b) with (c :: (a ++ p ++ b)).
    cbn [find_literal].
    destruct (strip_prefix p (c :: a ++ p ++ b)) as [r|].
    + exists [], r. split; [reflexivity | simpl; lia].
    + destruct IH as [a' [b' [F L]]]. rewrite F.
      exists (c :: a'), b'. split; [reflexivity | simpl; lia].
Qed.

Lemma app_suffix {A : Type} (l1 r1 l2 r2 : list A) :
  l1 ++ r1 = l2 ++ r2 -> (length l1 <= length l2)%nat ->
  exists x, r1 = x ++ r2.
Proof.
  revert l2. induction l1 as [|a l1 IH]; intros l2 E L.
  - exists l2. exact E.
  - destruct l2 as [|b l2]; [simpl in L; lia|].
    injection E as _ E. apply (IH l2 E). simpl in L. lia.
Qed.

(** X10: The well-formed PEM scan yields at least one payload exactly when
    the text holds a header with a footer somewhere after it; a header
    that no footer follows (a truncated block), a footer alone, or markers
    in another case leave the scan empty-handed. *)
Theorem pem_scan_finds_blocks (raw : jsstring) :
  pem_scan raw <> [] <-> exists g, block_body raw g.
Proof.
  split.
  - intros N. destruct (pem_scan raw) as [|r rs] eqn:E; [congruence|].
    assert (H : In r (pem_scan raw)) by (rewrite E; left; reflexivity).
    unfold pem_scan in H. apply in_map_iff in H as [g [_ Hg]].
    exists g. eapply pem_groups_in_text. exact Hg.
  - intros [g [before [after E]]]. unfold pem_scan.
    destruct (find_literal_complete HEADER before (g ++ FOOTER ++ after))
      as [b1 [r1 [F1 L1]]].
    rewrite <- E in F1.
    pose proof (find_literal_Some _ _ _ _ F1) as E1.
    destruct (app_suffix (b1 ++ HEADER) r1 (before ++ HEADER) (g ++ FOOTER ++ after))
      as [x Ex].
    { rewrite <- !app_assoc. rewrite <- E1. exact E. }
    { rewrite !length_app. lia. }
    destruct (find_literal_complete FOOTER (x ++ g) after) as [g1 [r2 [F2 _]]].
    rewrite <- app_assoc, <- Ex in F2.
    destruct (length raw) as [|fuel] eqn:Len.
    + apply (f_equal (@length char)) in E. rewrite Len, !length_app in E.
      change (length HEADER) with 27%nat in E. lia.
    + cbn [pem_groups]. rewrite F1, F2. discriminate.
Qed.

Lemma pem_scan_finds_blocks_witness :
  pem_scan spaced_block <> []
  /\ ~ (exists g, block_body (lit "-----BEGIN CERTIFICATE-----
QUJD
") g).
Proof.
  split.
  - apply (proj2 (pem_scan_finds_blocks spaced_block)).
    exists (lit "
QUJD RUZH
"), [], [LF]. vm_compute. reflexivity.
  - intros H. apply (proj2 (pem_scan_finds_blocks _)) in H.
    apply H. vm_compute. reflexivity.
Defined.

(* ================================================================= *)
(** ** The bare base64 scan *)

Lemma base64_runs_spec (s acc r : jsstring) :
  forallb isBase64OrSpace acc = true ->
  In r (base64_runs acc s) ->
  (200 <= length r)%nat
  /\ forallb isBase64OrSpace r = true
  /\ exists a b, acc ++ s = a ++ r ++ b.
Proof.
  revert acc. induction s as [|c s IH]; intros acc A H.
  - cbn [base64_runs] in H. unfold close_run in H.
    destruct (Nat.leb_spec 200 (length acc)) as [L|L]; [|destruct H].
    destruct H as [<-|[]]. split; [exact L|]. split; [exact A|].
    exists [], []. rewrite !app_nil_r. reflexivity.
  - cbn [base64_runs] in H. destruct (isBase64OrSpace c) eqn:C.
    + destruct (IH (acc ++ [c])) with (2 := H) as [L [B [a [b E]]]].
      { rewrite forallb_app, A. simpl. rewrite C. reflexivity. }
      split; [exact L|]. split; [exact B|]. exists a, b.
      rewrite <- E, <- app_assoc. reflexivity.
    + apply in_app_iff in H as [H|H].
      * unfold close_run in H.
        destruct (Nat.leb_spec 200 (length acc)) as [L|L]; [|destruct H].
        destruct H as [<-|[]]. split; [exact L|]. split; [exact A|].
        exists [], (c :: s). reflexivity.
      * destruct (IH [] eq_refl H) as [L [B [a [b E]]]].
        split; [exact L|]. split; [exact B|].
        exists (acc ++ c :: a), b. cbn [app] in E. rewrite E, <- app_assoc.
        reflexivity.
Qed.

Lemma remove_whitespace_class (run : jsstring) :
  forallb isBase64OrSpace run = true ->
  forallb isBase64 (remove_whitespace run) = true.
Proof.
  unfold remove_whitespace. induction run as [|c run IH]; simpl; [reflexivity|].
  intros H. apply andb_true_iff in H as [Hc Hr].
  destruct (isWhiteSpace c) eqn:W; simpl; [exact (IH Hr)|].
  unfold isBase64OrSpace in Hc. rewrite W, orb_false_r in Hc.
  rewrite Hc. exact (IH Hr).
Qed.

(** X11: Every payload of the bare base64 scan holds base64-alphabet
    characters only.  It is a stretch of at least 200 characters of the
    cleaned text, all of them base64 characters or white space, with the
    white space taken out; so the payload itself may be shorter than 200
    characters. *)
Theorem base64_scan_payload (raw r : jsstring) :
  In r (base64_scan raw) ->
  forallb isBase64 r = true
  /\ exists run a b,
       r = remove_whitespace run
       /\ (200 <= length run)%nat
       /\ forallb isBase64OrSpace run = true
       /\ cleaned raw = a ++ run ++ b.
Proof.
  unfold base64_scan. intros H. apply in_map_iff in H as [run [<- Hr]].
  destruct (base64_runs_spec (cleaned raw) [] run eq_refl Hr) as [L [B [a [b E]]]].
  split; [apply remove_whitespace_class, B|].
  exists run, a, b. auto.
Qed.

Lemma base64_scan_payload_witness :
  In (repeat 65 150 ++ repeat 66 150) (base64_scan bare_with_metadata)
  /\ forallb isBase64 (repeat 65 150 ++ repeat 66 150) = true.
Proof.
  assert (H : In (repeat 65 150 ++ repeat 66 150) (base64_scan bare_with_metadata))
    by (vm_compute; left; reflexivity).
  exact (conj H (proj1 (base64_scan_payload bare_with_metadata _ H))).
Defined.

Lemma cleaned_kept_lines (raw : jsstring) :
  cleaned raw = join [LF] (kept_lines raw).
Proof. reflexivity. Qed.

Lemma base64_runs_all (s acc : jsstring) :
  forallb isBase64OrSpace s = true ->
  base64_runs acc s = close_run (acc ++ s).
Proof.
  revert acc. induction s as [|c s IH]; intros acc H.
  - rewrite app_nil_r. reflexivity.
  - simpl in H. apply andb_true_iff in H as [Hc Hs].
    cbn [base64_runs]. rewrite Hc, (IH _ Hs), <- app_assoc. reflexivity.
Qed.

Lemma base64_class (l : jsstring) :
  forallb isBase64 l = true -> forallb isBase64OrSpace l = true.
Proof.
  induction l as [|c l IH]; simpl; [reflexivity|].
  intros H. apply andb_true_iff in H as [Hc Hl].
  unfold isBase64OrSpace at 1. rewrite Hc, (IH Hl). reflexivity.
Qed.

Lemma join_class (lines : list jsstring) :
  (forall l, In l lines -> forallb isBase64 l = true) ->
  forallb isBase64OrSpace (join [LF] lines) = true.
Proof.
  induction lines as [|x [|y more] IH]; intros H; [reflexivity | |].
  - simpl. apply base64_class, H. left. reflexivity.
  - change (join [LF] (x :: y :: more)) with (x ++ [LF] ++ join [LF] (y :: more)).
    rewrite !forallb_app. apply andb_true_iff. split.
    + apply base64_class, H. left. reflexivity.
    + apply andb_true_iff. split; [reflexivity|].
      apply IH. intros l Hl. apply H. right. exact Hl.
Qed.

Lemma remove_whitespace_join (lines : list jsstring) :
  (forall l, In l lines -> forallb isBase64 l = true) ->
  remove_whitespace (join [LF] lines) = concat lines.
Proof.
  induction lines as [|x [|y more] IH]; intros H; [reflexivity | |].
  - simpl. rewrite app_nil_r. apply remove_whitespace_base64, H. left. reflexivity.
  - change (join [LF] (x :: y :: more)) with (x ++ [LF] ++ join [LF] (y :: more)).
    unfold remove_whitespace in *. rewrite !filter_app.
    rewrite IH by (intros l Hl; apply H; right; exact Hl).
    fold (remove_whitespace x).
    rewrite remove_whitespace_base64 by (apply H; left; reflexivity).
    reflexivity.
Qed.

Lemma canonicalize_dash (c : char) : canonicalize c = 45 -> c = 45.
Proof.
  unfold canonicalize, in_range.
  destruct ((97 <=? c) && (c <=? 122)) eqn:R; [|auto].
  bool_to_prop. lia.
Qed.

(** A line that is an END marker starts with a hyphen: it is kept by the
    filter of strategy 2 and it is not a base64 line. *)
Lemma end_marker_is_kept (l : jsstring) :
  is_end_marker l = true -> keep_line l = true /\ forallb isBase64 l = false.
Proof.
  unfold is_end_marker, str_eqb_ci. intros H. apply str_eqb_eq in H.
  destruct l as [|c l]; [discriminate H|].
  cbn [map] in H. rewrite FOOTER_dash in H. cbn [map canonicalize] in H.
  assert (K : canonicalize c = 45) by (injection H; auto).
  apply canonicalize_dash in K. subst c. split; reflexivity.
Qed.

Lemma no_end_marker_no_salvage (lines : list jsstring) :
  (forall l, In l lines -> is_end_marker l = false) -> salvage_lines lines = [].
Proof.
  intros H. unfold salvage_lines, salvage_loop.
  rewrite (salvage_open_tail lines _ H). reflexivity.
Qed.

Lemma base64_scan_bare (raw : jsstring) :
  (forall l, In l (kept_lines raw) -> forallb isBase64 l = true) ->
  base64_scan raw
  = if (200 <=? length (join [LF] (kept_lines raw)))%nat
    then [concat (kept_lines raw)] else [].
Proof.
  intros B. unfold base64_scan. rewrite cleaned_kept_lines.
  rewrite (base64_runs_all _ [] (join_class _ B)). cbn [app].
  unfold close_run.
  destruct (200 <=? length (join [LF] (kept_lines raw)))%nat; [|reflexivity].
  cbn [map]. rewrite (remove_whitespace_join _ B). reflexivity.
Qed.

Lemma line_salvage_bare (raw : jsstring) :
  (forall l, In l (kept_lines raw) -> forallb isBase64 l = true) ->
  line_salvage raw = [].
Proof.
  intros B. unfold line_salvage. apply no_end_marker_no_salvage.
  intros l Hl. destruct (is_end_marker l) eqn:E; [|reflexivity].
  destruct (end_marker_is_kept l E) as [K N].
  rewrite B in N; [discriminate N|].
  unfold kept_lines. apply filter_In. split; assumption.
Qed.

Lemma extract_bare_base64 (raw : jsstring) :
  pem_scan raw = [] ->
  (forall l, In l (kept_lines raw) -> forallb isBase64 l = true) ->
  extract raw
  = if (200 <=? length (join [LF] (kept_lines raw)))%nat
    then {| matches := [concat (kept_lines raw)];
            applied := [PemScan; Base64Scan];
            warned := false |}
    else {| matches := [];
            applied := [PemScan; Base64Scan; LineSalvage];
            warned := true |}.
Proof.
  intros P B. unfold extract, extract3, extract2, extract1.
  rewrite P, (line_salvage_bare raw B).
  cbn [matches applied warned length Nat.eqb app].
  rewrite (base64_scan_bare raw B).
  destruct (200 <=? length (join [LF] (kept_lines raw)))%nat; reflexivity.
Qed.

(** X12: When the text holds no well-formed block and every line that
    survives the filter of strategy 2 (trimmed, not empty, not starting
    with [subject=] or [issuer=] in any case) is a base64 line, the
    extractor yields one payload, these lines put end to end, provided
    the lines joined by newlines count at least 200 characters, newlines
    included; below 200 all three strategies are tried and nothing is
    found. *)
Theorem bare_base64_extraction (raw : jsstring) :
  pem_scan raw = [] ->
  (forall l, In l (kept_lines raw) -> forallb isBase64 l = true) ->
  extract raw
  = if (200 <=? length (join [LF] (kept_lines raw)))%nat
    then {| matches := [concat (kept_lines raw)];
            applied := [PemScan; Base64Scan];
            warned := false |}
    else {| matches := [];
            applied := [PemScan; Base64Scan; LineSalvage];
            warned := true |}.
Proof.
  intros P B. unfold extract, extract2, extract1. rewrite P.
  cbn [matches applied warned length Nat.eqb app].
  rewrite (base64_scan_bare raw B). unfold extract3.
  destruct (200 <=? length (join [LF] (kept_lines raw)))%nat; [reflexivity|].
  cbn [matches applied warned length Nat.eqb app].
  rewrite (line_salvage_bare raw B). reflexivity.
Qed.

Lemma bare_base64_extraction_witness :
  extract bare_with_metadata
  = {| matches := [repeat 65 150 ++ repeat 66 150];
       applied := [PemScan; Base64Scan];
       warned := false |}
  /\ extract [] = {| matches := [];
                     applied := [PemScan; Base64Scan; LineSalvage];
                     warned := true |}.
Proof.
  split.
  - rewrite (bare_base64_extraction bare_with_metadata).
    + vm_compute. reflexivity.
    + vm_compute. reflexivity.
    + intros l Hl. vm_compute in Hl.
      destruct Hl as [<-|[<-|[]]]; vm_compute; reflexivity.
  - rewrite (bare_base64_extraction []).
    + reflexivity.
    + reflexivity.
    + intros l [].
Defined.

(* ================================================================= *)
(** ** What the salvage pushes *)

Lemma marker_resets_buffer (st : Salvage) (m : jsstring) :
  is_marker m = true -> buffer (salvage_step st m) = [].
Proof.
  unfold is_marker, salvage_step. intros H.
  destruct (is_begin_marker m); [reflexivity|].
  simpl in H. rewrite H. reflexivity.
Qed.

Lemma opened_buffer_empty (before : list jsstring) :
  opened_anyhow before -> buffer (salvage_loop before) = [].
Proof.
  intros [->|[b' [m [-> M]]]]; [reflexivity|].
  rewrite salvage_loop_snoc. apply marker_resets_buffer, M.
Qed.

(** Lines without markers only add their base64 lines to the buffer. *)
Lemma salvage_stretch (seg : list jsstring) (st : Salvage) :
  (forall l, In l seg -> is_marker l = false) ->
  fold_left salvage_step seg st
  = {| buffer := buffer st ++ concat (filter is_base64_line seg);
       potential := potential st |}.
Proof.
  revert st. induction seg as [|l seg IH]; intros st H.
  - cbn. rewrite app_nil_r. destruct st; reflexivity.
  - cbn [fold_left]. rewrite IH by (intros x Hx; apply H; right; exact Hx).
    pose proof (H l (or_introl eq_refl)) as M. unfold is_marker in M.
    apply orb_false_iff in M as [Mb Me].
    unfold salvage_step. rewrite Mb, Me. cbn [filter].
    destruct (is_base64_line l); cbn [buffer potential concat].
    + rewrite <- app_assoc. reflexivity.
    + reflexivity.
Qed.

Lemma end_marker_not_begin (e : jsstring) :
  is_end_marker e = true -> is_begin_marker e = false.
Proof.
  unfold is_end_marker, is_begin_marker, str_eqb_ci. intros H.
  apply str_eqb_eq in H. rewrite H. reflexivity.
Qed.

(** X13: In the line-by-line salvage, a stretch of lines without markers
    that starts at the first line or right after a marker line and that
    an END marker line closes pushes exactly one payload, its base64
    lines put end to end, after what the lines before it pushed; it
    pushes nothing when it holds no base64 line.  Lines that are not
    base64 lines are skipped without ending the stretch. *)
Theorem salvage_closed_stretch (before seg : list jsstring) (e : jsstring) :
  opened_anyhow before ->
  (forall l, In l seg -> is_marker l = false) ->
  is_end_marker e = true ->
  salvage_lines (before ++ seg ++ [e])
  = salvage_lines before
    ++ (if nonempty (concat (filter is_base64_line seg))
        then [concat (filter is_base64_line seg)] else []).
Proof.
  intros O M E. unfold salvage_lines, salvage_loop.
  rewrite !fold_left_app. fold (salvage_loop before).
  rewrite (salvage_stretch seg _ M), (opened_buffer_empty before O).
  cbn [fold_left app]. unfold salvage_step.
  rewrite (end_marker_not_begin e E), E. cbn [buffer potential].
  destruct (concat (filter is_base64_line seg)) as [|c r] eqn:C.
  - cbn. rewrite app_nil_r. reflexivity.
  - cbn [length Nat.ltb Nat.leb nonempty]. rewrite <- C.
    rewrite (remove_whitespace_base64 _ (base64_lines_concat seg)). reflexivity.
Qed.

Lemma salvage_closed_stretch_witness :
  salvage_lines
    ([lit "-----begin certificate-----"]
     ++ [lit "QUJD"; lit "not base64!"; lit "RUZH"]
     ++ [lit "-----end certificate-----"])
  = salvage_lines [lit "-----begin certificate-----"] ++ [lit "QUJDRUZH"].
Proof.
  rewrite (salvage_closed_stretch [lit "-----begin certificate-----"]
             [lit "QUJD"; lit "not base64!"; lit "RUZH"]
             (lit "-----end certificate-----")).
  - vm_compute. reflexivity.
  - right. exists [], (lit "-----begin certificate-----").
    split; vm_compute; reflexivity.
  - intros l Hl. vm_compute in Hl.
    destruct Hl as [<-|[<-|[<-|[]]]]; vm_compute; reflexivity.
  - vm_compute. reflexivity.
Defined.

(* ================================================================= *)
(** ** FileToBase64.js and its use with convert-certs.js *)

Lemma b64_digit_alphabet (i : N) :
  isBase64 (b64_digit i) = true /\ b64_digit i <> 61.
Proof.
  unfold b64_digit.
  destruct (N.ltb_spec i 26); [|destruct (N.ltb_spec i 52);
    [|destruct (N.ltb_spec i 62); [|destruct (N.eqb_spec i 62)]]];
    unfold isBase64, in_range; bool_to_prop; split; lia.
Qed.

Lemma toBase64_bounded (n : nat) (data : list Byte.byte) :
  (length data <= n)%nat ->
  forallb isBase64 (toBase64 data) = true
  /\ length (toBase64 data) = (4 * ((length data + 2) / 3))%nat.
Proof.
  revert data. induction n as [|n IH]; intros data L.
  - destruct data; [split; reflexivity | simpl in L; lia].
  - destruct data as [|a [|b [|c rest]]].
    + split; reflexivity.
    + cbn [toBase64 forallb].
      rewrite (proj1 (b64_digit_alphabet _)), (proj1 (b64_digit_alphabet _)).
      split; reflexivity.
    + cbn [toBase64 forallb].
      rewrite !(proj1 (b64_digit_alphabet _)). split; reflexivity.
    + destruct (IH rest) as [B Len]; [simpl in L; lia|].
      cbn [toBase64]. split.
      * cbn [app forallb]. rewrite !(proj1 (b64_digit_alphabet _)). exact B.
      * cbn [app length]. rewrite Len.
        replace (S (S (S (length rest))) + 2)%nat
          with ((length rest + 2) + 1 * 3)%nat by lia.
        rewrite Nat.div_add by lia. lia.
Qed.

Lemma toBase64_alphabet (data : list Byte.byte) :
  forallb isBase64 (toBase64 data) = true.
Proof. apply (toBase64_bounded (length data) data (le_n _)). Qed.

Lemma toBase64_length (data : list Byte.byte) :
  length (toBase64 data) = (4 * ((length data + 2) / 3))%nat.
Proof. apply (toBase64_bounded (length data) data (le_n _)). Qed.

Lemma split_lines_base64 (s : jsstring) :
  forallb isBase64 s = true -> split_lines s = [s].
Proof.
  induction s as [|c s IH]; intros B; [reflexivity|].
  simpl in B. apply andb_true_iff in B as [Bc Bs].
  pose proof (isBase64_not_line_break c Bc) as NL.
  unfold is_line_break in NL. apply orb_false_iff in NL as [N1 N2].
  cbn [split_lines]. rewrite N1, N2, (IH Bs). reflexivity.
Qed.

Lemma strip_prefix_ci_nth (p s r : jsstring) (i : nat) (x : char) :
  strip_prefix_ci p s = Some r -> nth_error p i = Some x ->
  exists y, nth_error s i = Some y /\ canonicalize x = canonicalize y.
Proof.
  revert s i. induction p as [|a p IH]; intros s i H Hx.
  - destruct i; discriminate Hx.
  - destruct s as [|b s]; [discriminate H|]. cbn [strip_prefix_ci] in H.
    destruct (N.eqb_spec (canonicalize a) (canonicalize b)) as [E|]; [|discriminate H].
    destruct i as [|i]; simpl in Hx.
    + injection Hx as <-. exists b. split; [reflexivity | exact E].
    + apply (IH s i H Hx).
Qed.

Lemma canonicalize_equals (y : char) : canonicalize y = 61 -> y = 61.
Proof.
  unfold canonicalize, in_range.
  destruct ((97 <=? y) && (y <=? 122)) eqn:R; [|auto].
  bool_to_prop. lia.
Qed.

(** The first eight characters of the base64 text of six bytes or more
    are digits of the alphabet, none of them the padding. *)
Lemma toBase64_head (data : list Byte.byte) (i : nat) :
  (6 <= length data)%nat -> (i < 8)%nat ->
  exists k, nth_error (toBase64 data) i = Some (b64_digit k).
Proof.
  intros L Hi.
  destruct data as [|a [|b [|c [|d [|e [|f rest]]]]]]; simpl in L; try lia.
  cbn [toBase64 app].
  do 8 (destruct i as [|i]; [eexists; reflexivity|]). lia.
Qed.

Lemma toBase64_not_metadata (data : list Byte.byte) (p : jsstring) (i : nat) :
  (6 <= length data)%nat -> (i < 8)%nat -> nth_error p i = Some 61 ->
  starts_with_ci p (toBase64 data) = false.
Proof.
  intros L Hi Hp. unfold starts_with_ci.
  destruct (strip_prefix_ci p (toBase64 data)) as [r|] eqn:E; [|reflexivity].
  destruct (strip_prefix_ci_nth _ _ _ _ _ E Hp) as [y [Hy Ey]].
  destruct (toBase64_head data i L Hi) as [k Hk].
  rewrite Hk in Hy. injection Hy as <-.
  change (canonicalize 61) with 61 in Ey. symmetry in Ey.
  apply canonicalize_equals in Ey.
  destruct (b64_digit_alphabet k) as [_ N]. congruence.
Qed.

Lemma pem_scan_dash_free (s : jsstring) : dash_free s = true -> pem_scan s = [].
Proof.
  intros D. unfold pem_scan. destruct (length s); [reflexivity|].
  cbn [pem_groups]. rewrite HEADER_dash, (find_literal_dash_free _ s D).
  reflexivity.
Qed.

Lemma decode_pem_base64 (r : jsstring) :
  forallb isBase64 r = true ->
  option_map decode_body (body_of (pem r)) = Some r.
Proof.
  intros B. rewrite body_of_pem. unfold cleanedB64.
  rewrite (keep_base64_id r B), (wrap64_base64 r B). simpl. f_equal.
  rewrite decode_join.
  - apply lines64_concat, le_n.
  - intros l Hl. eapply lines64_each; eassumption.
Qed.

(** X15: The two scripts work together.  When [FileToBase64.js] has
    written a text of at least 200 characters (a file of 148 bytes or
    more) and [convert-certs.js] is run on it, the bare base64 scan finds
    exactly that text as the one payload, the run completes, and
    [cert-1.pem] is the PEM text of it, whose body gives the text back
    when its line breaks are removed. *)
Theorem base64_file_becomes_pem (argv0 : list jsstring)
    (read0 : jsstring -> option (list Byte.byte)) (out : jsstring) (env : Env) :
  file_to_base64 argv0 read0 = Some out ->
  (200 <= length out)%nat ->
  reads env out ->
  extract out
  = {| matches := [out]; applied := [PemScan; Base64Scan]; warned := false |}
  /\ status (main env) = Completed
  /\ read_back (CertFile 1) (effects (main env)) = Some (Text (pem out))
  /\ option_map decode_body (body_of (pem out)) = Some out.
Proof.
  unfold file_to_base64. intros F L [A R].
  destruct (nth_error argv0 2) as [filePath|]; [|discriminate F].
  destruct (read0 filePath) as [data|]; [|discriminate F].
  injection F as <-.
  pose proof (toBase64_alphabet data) as B.
  assert (L6 : (6 <= length data)%nat).
  { rewrite toBase64_length in L.
    destruct (le_lt_dec 6 (length data)) as [K|K]; [exact K|].
    assert ((length data + 2) / 3 < 3)%nat
      by (apply Nat.Div0.div_lt_upper_bound; lia).
    lia. }
  assert (K : kept_lines (toBase64 data) = [toBase64 data]).
  { unfold kept_lines. rewrite (split_lines_base64 _ B). cbn [map].
    rewrite (trim_base64 _ B). cbn [filter]. unfold keep_line.
    rewrite (toBase64_not_metadata data (lit "subject=") 7 L6) by (auto; reflexivity).
    rewrite (toBase64_not_metadata data (lit "issuer=") 6 L6) by (auto; reflexivity).
    destruct (toBase64 data); [simpl in L; lia | reflexivity]. }
  assert (E : extract (toBase64 data)
              = {| matches := [toBase64 data];
                   applied := [PemScan; Base64Scan]; warned := false |}).
  { rewrite extract_bare_base64.
    - rewrite K. cbn [join concat]. rewrite app_nil_r.
      apply Nat.leb_le in L. rewrite L. reflexivity.
    - apply pem_scan_dash_free, base64_dash_free, B.
    - rewrite K. intros l [<-|[]]. exact B. }
  split; [exact E|].
  assert (H : reads_certificates env (toBase64 data)).
  { unfold reads_certificates. rewrite E. repeat split; auto. discriminate. }
  destruct (main_completes env _ H) as [lf [msg [_ M]]].
  rewrite M. cbn [status effects]. split; [reflexivity|].
  split; [|apply decode_pem_base64, B].
  apply (read_back_cert_in_run env (toBase64 data) lf msg 0).
  rewrite E. reflexivity.
Qed.

Lemma base64_file_becomes_pem_witness :
  extract (toBase64 der150)
  = {| matches := [toBase64 der150];
       applied := [PemScan; Base64Scan]; warned := false |}
  /\ status (main (run_on (toBase64 der150))) = Completed
  /\ read_back (CertFile 1) (effects (main (run_on (toBase64 der150))))
     = Some (Text (pem (toBase64 der150)))
  /\ option_map decode_body (body_of (pem (toBase64 der150)))
     = Some (toBase64 der150).
Proof.
  apply (base64_file_becomes_pem argv_der read_der150 (toBase64 der150)
           (run_on (toBase64 der150))).
  - reflexivity.
  - vm_compute. lia.
  - split; [vm_compute; lia | reflexivity].
Defined.

(* ================================================================= *)
(** ** What the metadata holds *)

Lemma dot_star_no_terminator (s : jsstring) (c : char) :
  In c (dot_star s) -> isLineTerminator c = false.
Proof.
  induction s as [|a s IH]; simpl; [tauto|].
  destruct (isLineTerminator a) eqn:T; [intros []|].
  intros [<-|H]; [exact T | exact (IH H)].
Qed.

Lemma field_value (name info v : jsstring) :
  field name info = Some v ->
  (forall c, In c v -> isLineTerminator c = false) /\ no_edge_whitespace v.
Proof.
  unfold field. destruct (find_literal name info) as [[before rest]|]; [|discriminate].
  intros H. injection H as <-. split; [|apply trim_edges].
  intros c Hc. apply trim_incl in Hc. eapply dot_star_no_terminator, Hc.
Qed.

(** X16: In every record of the metadata, a field that is present
    (subject, issuer, notBefore or notAfter) is a piece of one line of the
    reader's output: it holds no line terminator and neither starts nor
    ends with white space.  When the reader gives nothing, or an output
    that is empty once trimmed, the four fields are all absent. *)
Theorem metadata_fields (o : Artifact -> jsstring -> option jsstring)
    (p : PemFile) :
  (forall v,
     subject (meta_of o p) = Some v \/ issuer (meta_of o p) = Some v
     \/ notBefore (meta_of o p) = Some v \/ notAfter (meta_of o p) = Some v ->
     (forall c, In c v -> isLineTerminator c = false) /\ no_edge_whitespace v)
  /\ (truthy (opensslInspect (o (pf_path p) (pf_pem p))) = false ->
      subject (meta_of o p) = None /\ issuer (meta_of o p) = None
      /\ notBefore (meta_of o p) = None /\ notAfter (meta_of o p) = None).
Proof.
  unfold meta_of. cbn [subject issuer notBefore notAfter].
  destruct (opensslInspect (o (pf_path p) (pf_pem p))) as [i|] eqn:I.
  - destruct (truthy (Some i)) eqn:T.
    + split; [|discriminate].
      intros v [H|[H|[H|H]]]; eapply field_value; exact H.
    + split; [|auto]. intros v [H|[H|[H|H]]]; discriminate H.
  - split; [|auto]. intros v [H|[H|[H|H]]]; discriminate H.
Qed.

Lemma metadata_fields_witness :
  (forall c, In c (lit "CN = www.example.org") -> isLineTerminator c = false)
  /\ no_edge_whitespace (lit "CN = www.example.org").
Proof.
  apply (proj1 (metadata_fields reader_leaf_first
                  {| pf_path := CertFile 1; pf_pem := []; pf_rawB64 := [] |})).
  left. vm_compute. reflexivity.
Defined.

(* ================================================================= *)
(** ** Encoding again *)

(** X17: Encoding is idempotent on what it produced: for every payload
    [b64], decoding the body of [pem b64] (removing its line breaks) and
    encoding the result gives [pem b64] again. *)
Theorem encode_decoded_body (b64 body : jsstring) :
  body_of (pem b64) = Some body ->
  decode_body body = cleanedB64 b64 /\ pem (decode_body body) = pem b64.
Proof.
  rewrite body_of_pem. intros H. injection H as <-.
  destruct (wrap64_lines b64) as [lines [E [B C]]].
  assert (D : decode_body (wrap64 (cleanedB64 b64)) = cleanedB64 b64).
  { rewrite E, (decode_join lines B). exact C. }
  rewrite D. split; [reflexivity | apply pem_of_cleaned].
Qed.

Lemma encode_decoded_body_witness :
  decode_body (wrap64 (cleanedB64 garbage_block)) = cleanedB64 garbage_block
  /\ pem (decode_body (wrap64 (cleanedB64 garbage_block))) = pem garbage_block.
Proof.
  apply (encode_decoded_body garbage_block). apply body_of_pem.
Defined.

(* ================================================================= *)
(** ** Blocks written by other tools *)

Lemma forallb_join {P : char -> bool} (sep : jsstring) (ls : list jsstring) :
  forallb P sep = true ->
  (forall l, In l ls -> forallb P l = true) ->
  forallb P (join sep ls) = true.
Proof.
  intros S H. destruct ls as [|x r]; [reflexivity|].
  rewrite join_cons, forallb_app. apply andb_true_iff. split.
  - apply H. left. reflexivity.
  - assert (K : forall l, In l r -> forallb P l = true)
      by (intros l Hl; apply H; right; exact Hl).
    clear H. induction r as [|y r IH]; [reflexivity|].
    cbn [flat_map]. rewrite !forallb_app, S, (K y (or_introl eq_refl)).
    apply IH. intros l Hl. apply K. right. exact Hl.
Qed.

Lemma remove_line_breaks_base64_app (l s : jsstring) :
  forallb isBase64 l = true ->
  remove_line_breaks (l ++ s) = l ++ remove_line_breaks s.
Proof.
  induction l as [|c l IH]; intros B; [reflexivity|].
  simpl in B. apply andb_true_iff in B as [Bc Bl].
  pose proof (isBase64_not_line_break c Bc) as NL.
  unfold is_line_break in NL. apply orb_false_iff in NL as [N1 N2].
  cbn [app remove_line_breaks]. rewrite N1, N2, (IH Bl). reflexivity.
Qed.

Lemma remove_line_breaks_eol (eol s : jsstring) :
  eol = [LF] \/ eol = [CR; LF] ->
  remove_line_breaks (eol ++ s) = remove_line_breaks s.
Proof. intros [->| ->]; reflexivity. Qed.

Lemma remove_line_breaks_lines (eol : jsstring) (r : list jsstring) :
  eol = [LF] \/ eol = [CR; LF] ->
  (forall l, In l r -> forallb isBase64 l = true) ->
  remove_line_breaks (flat_map (fun y => eol ++ y) r ++ eol) = concat r.
Proof.
  intros E H. induction r as [|y r IH].
  - cbn [flat_map app]. rewrite <- (app_nil_r eol).
    rewrite (remove_line_breaks_eol eol [] E). reflexivity.
  - cbn [flat_map concat]. rewrite <- !app_assoc.
    rewrite (remove_line_breaks_eol eol _ E).
    rewrite remove_line_breaks_base64_app by (apply H; left; reflexivity).
    rewrite IH by (intros l Hl; apply H; right; exact Hl). reflexivity.
Qed.

Lemma concat_base64 (ls : list jsstring) :
  (forall l, In l ls -> forallb isBase64 l = true) ->
  forallb isBase64 (concat ls) = true.
Proof.
  induction ls as [|x r IH]; intros H; [reflexivity|].
  cbn [concat]. rewrite forallb_app, (H x (or_introl eq_refl)).
  apply IH. intros l Hl. apply H. right. exact Hl.
Qed.

Lemma pem_groups_dash_free (fuel : nat) (s : jsstring) :
  dash_free s = true -> pem_groups fuel s = [].
Proof.
  intros D. destruct fuel; [reflexivity|].
  cbn [pem_groups]. rewrite HEADER_dash, (find_literal_dash_free _ s D).
  reflexivity.
Qed.

(** X18: A block written by another tool is read the same with Unix or
    with Windows line endings, whatever the width of its lines: for
    base64 lines [ls] ended by LF, or all of them by CR LF, between a
    header line and a footer line, with text without hyphens around the
    block, the well-formed PEM scan yields the one payload made of the
    lines put end to end. *)
Theorem pem_scan_foreign_block (eol pre post : jsstring) (ls : list jsstring) :
  eol = [LF] \/ eol = [CR; LF] ->
  dash_free pre = true -> dash_free post = true ->
  (forall l, In l ls -> forallb isBase64 l = true) ->
  pem_scan (pre ++ HEADER ++ (eol ++ join eol ls ++ eol) ++ FOOTER ++ post)
  = [concat ls].
Proof.
  intros E Dpre Dpost B.
  assert (De : dash_free eol = true) by (destruct E as [->| ->]; reflexivity).
  assert (Dg : dash_free (eol ++ join eol ls ++ eol) = true).
  { rewrite !dash_free_app, De. cbn [andb]. rewrite andb_true_r.
    apply (forallb_join eol ls De).
    intros l Hl. apply base64_dash_free, B, Hl. }
  assert (G : trim (remove_line_breaks (eol ++ join eol ls ++ eol)) = concat ls).
  { rewrite (remove_line_breaks_eol eol _ E).
    destruct ls as [|x r].
    - cbn [join app concat]. rewrite <- (app_nil_r eol).
      rewrite (remove_line_breaks_eol eol [] E). reflexivity.
    - rewrite join_cons, <- app_assoc.
      rewrite remove_line_breaks_base64_app by (apply B; left; reflexivity).
      rewrite (remove_line_breaks_lines eol r E)
        by (intros l Hl; apply B; right; exact Hl).
      apply (trim_base64 (concat (x :: r))), concat_base64, B. }
  unfold pem_scan.
  destruct (length (pre ++ HEADER ++ (eol ++ join eol ls ++ eol) ++ FOOTER ++ post))
    as [|fuel] eqn:Len.
  - rewrite !length_app in Len. change (length HEADER) with 27%nat in Len. lia.
  - cbn [pem_groups]. rewrite HEADER_dash.
    rewrite (find_literal_after_dash_free _ pre _ Dpre).
    rewrite FOOTER_dash.
    rewrite (find_literal_after_dash_free _ _ post Dg).
    rewrite (pem_groups_dash_free fuel post Dpost).
    cbn [map]. rewrite G. reflexivity.
Qed.

Lemma pem_scan_foreign_block_witness :
  pem_scan ([] ++ HEADER
            ++ ([CR; LF] ++ join [CR; LF] [lit "QUJD"; lit "RUZH"] ++ [CR; LF])
            ++ FOOTER ++ [CR; LF])
  = [lit "QUJDRUZH"].
Proof.
  rewrite (pem_scan_foreign_block [CR; LF] [] [CR; LF] [lit "QUJD"; lit "RUZH"]).
  - reflexivity.
  - right. reflexivity.
  - reflexivity.
  - reflexivity.
  - intros l [<-|[<-|[]]]; reflexivity.
Defined.
